(** * Waypoint updater: a shallow embedding of
      [ros/src/waypoint_updater/waypoint_updater.py]

    The node keeps the latest pose, velocity and stop index, and on every
    tick of its 10 Hz loop publishes a window of waypoints annotated with a
    target speed.

    Conventions of the embedding.
    - Python [float] values are idealised as real numbers ([R]); the only
      non-finite value the program itself creates, [float('inf')], is kept
      as a separate constructor.
    - Python [int] values are [Z]; [i % n] is [Z.modulo], which agrees with
      Python's floored remainder for a positive [n].
    - A Python exception is a value of the result type: list indexing raises
      [IndexError], [%] by zero raises [ZeroDivisionError].
    - The attributes of [self] are the fields of the record [Node]; the
      attributes that exist only once their callback has run are options. *)

From Stdlib Require Import Reals Lra Lia ZArith List Bool.
Import ListNotations.

Open Scope Z_scope.
Open Scope R_scope.

(** ** The Python runtime used by the node *)

Module Py.

Inductive Error : Type :=
| IndexError
| ZeroDivisionError.

Inductive Result (A : Type) : Type :=
| Ok (a : A)
| Raise (e : Error).
Arguments Ok {A} a.
Arguments Raise {A} e.

Definition bind {A B : Type} (m : Result A) (k : A -> Result B) : Result B :=
  match m with
  | Ok a => k a
  | Raise e => Raise e
  end.

(** [l[i]]: negative indices count from the end of the list. *)
Definition getitem {A : Type} (l : list A) (i : Z) : Result A :=
  let n := Z.of_nat (length l) in
  let j := if (i <? 0)%Z then (n + i)%Z else i in
  if ((0 <=? j) && (j <? n))%Z
  then match nth_error l (Z.to_nat j) with
       | Some a => Ok a
       | None => Raise IndexError
       end
  else Raise IndexError.

(** [i % n] on integers. *)
Definition mod_ (i n : Z) : Result Z :=
  if (n =? 0)%Z then Raise ZeroDivisionError else Ok (i mod n)%Z.

(** [range(lo, hi)], in ascending order; empty when [hi <= lo]. *)
Definition range (lo hi : Z) : list Z :=
  map (fun k => (lo + Z.of_nat k)%Z) (seq 0 (Z.to_nat (hi - lo))).

(** A [for] loop whose body may raise: the first exception ends it. *)
Fixpoint for_each {A B : Type} (body : A -> Result B) (l : list A)
  : Result (list B) :=
  match l with
  | [] => Ok []
  | a :: rest =>
      bind (body a) (fun b =>
      bind (for_each body rest) (fun bs => Ok (b :: bs)))
  end.

(** Comparisons of floats, as booleans. *)
Definition flt (a b : R) : bool := if Rlt_dec a b then true else false.
Definition fle (a b : R) : bool := if Rle_dec a b then true else false.
Definition fgt (a b : R) : bool := if Rgt_dec a b then true else false.
Definition fge (a b : R) : bool := if Rge_dec a b then true else false.

(** A float that may be [float('inf')]. *)
Inductive float_inf : Type :=
| Finite (r : R)
| PosInf.

(** [d < c] for a finite [d]. *)
Definition flt_inf (d : R) (c : float_inf) : bool :=
  match c with
  | Finite r => flt d r
  | PosInf => true
  end.

(** [math.atan2(y, x)] on the reals (signed zeros do not exist here;
    [atan2(0, 0)] is [0] as in the C library). *)
Definition atan2 (y x : R) : R :=
  if flt 0 x then atan (y / x)
  else if flt x 0 then
         if fle 0 y then atan (y / x) + PI else atan (y / x) - PI
  else if flt 0 y then PI / 2
  else if flt y 0 then - (PI / 2)
  else 0.

End Py.

Notation "x <- m ;; k" := (Py.bind m (fun x => k))
  (at level 61, m at next level, right associativity).

(** ** Messages *)

Module Msg.

Record Point : Type := mkPoint { x : R; y : R; z : R }.

Record Quaternion : Type := mkQuaternion { qx : R; qy : R; qz : R; qw : R }.

(** [geometry_msgs/Pose], reached in the source as [msg.pose]. *)
Record Pose : Type := mkPose { position : Point; orientation : Quaternion }.

(** [styx_msgs/Waypoint]: [pose.pose] and [twist.twist.linear.x]. The other
    components of the twist are never written by the node. *)
Record Waypoint : Type := mkWaypoint { pose : Pose; linear_x : R }.

End Msg.

Import Msg.

(** Modelled from the spec: [tf.transformations.euler_from_quaternion] is a
    library outside the repository; its last component (the yaw) is taken
    from the closed form the specification gives,
    [atan2(2(qw qz + qx qy), 1 - 2(qy^2 + qz^2))]. *)
Definition euler_yaw (q : Quaternion) : R :=
  Py.atan2 (2 * (qw q * qz q + qx q * qy q))
           (1 - 2 * (qy q * qy q + qz q * qz q)).

(** ** The node *)

Definition LOOKAHEAD_WPS : Z := 200.
Definition MAX_DECEL : R := 4.
Definition STOP_BUFFER : R := 5.

Record Node : Type := mkNode {
  base_waypoints : option (list Waypoint);
  current_pose : option Pose;
  obstacle_waypoint : option Z;
  current_velocity : R;
  decel : R;
  traffic_waypoint : Z;
  braking : bool
}.

(** The attributes [__init__] sets before the loop starts. *)
Definition init : Node :=
  {| base_waypoints := None;
     current_pose := None;
     obstacle_waypoint := None;
     current_velocity := 0;
     decel := 1;
     traffic_waypoint := -1;
     braking := false |}.

Definition set_braking (s : Node) (b : bool) : Node :=
  {| base_waypoints := base_waypoints s;
     current_pose := current_pose s;
     obstacle_waypoint := obstacle_waypoint s;
     current_velocity := current_velocity s;
     decel := decel s;
     traffic_waypoint := traffic_waypoint s;
     braking := b |}.

(** *** Callbacks *)

Definition current_pose_cb (s : Node) (msg : Pose) : Node :=
  {| base_waypoints := base_waypoints s;
     current_pose := Some msg;
     obstacle_waypoint := obstacle_waypoint s;
     current_velocity := current_velocity s;
     decel := decel s;
     traffic_waypoint := traffic_waypoint s;
     braking := braking s |}.

Definition base_waypoints_cb (s : Node) (msg : list Waypoint) : Node :=
  {| base_waypoints := Some msg;
     current_pose := current_pose s;
     obstacle_waypoint := obstacle_waypoint s;
     current_velocity := current_velocity s;
     decel := decel s;
     traffic_waypoint := traffic_waypoint s;
     braking := braking s |}.

Definition traffic_waypoint_cb (s : Node) (data : Z) : Node :=
  {| base_waypoints := base_waypoints s;
     current_pose := current_pose s;
     obstacle_waypoint := obstacle_waypoint s;
     current_velocity := current_velocity s;
     decel := decel s;
     traffic_waypoint := data;
     braking := braking s |}.

Definition current_velocity_cb (s : Node) (v : R) : Node :=
  {| base_waypoints := base_waypoints s;
     current_pose := current_pose s;
     obstacle_waypoint := obstacle_waypoint s;
     current_velocity := v;
     decel := decel s;
     traffic_waypoint := traffic_waypoint s;
     braking := braking s |}.

Definition obstacle_waypoint_cb (s : Node) (data : Z) : Node :=
  {| base_waypoints := base_waypoints s;
     current_pose := current_pose s;
     obstacle_waypoint := Some data;
     current_velocity := current_velocity s;
     decel := decel s;
     traffic_waypoint := traffic_waypoint s;
     braking := braking s |}.

(** *** Geometry *)

Definition distance (p1 p2 : Point) : R :=
  let dx := x p1 - x p2 in
  let dy := y p1 - y p2 in
  let dz := z p1 - z p2 in
  sqrt (dx * dx + dy * dy + dz * dz).

(** The body of the scan of [get_closest_waypoint]: [i] is the index of the
    head of [wps], [closest_dist] and [closest_wp] are the loop's variables. *)
Fixpoint closest_scan (p : Pose) (wps : list Waypoint) (i : Z)
         (closest_dist : Py.float_inf) (closest_wp : Z) : Z :=
  match wps with
  | [] => closest_wp
  | w :: rest =>
      let dist := distance (position p) (position (pose w)) in
      if Py.flt_inf dist closest_dist
      then closest_scan p rest (i + 1) (Py.Finite dist) i
      else closest_scan p rest (i + 1) closest_dist closest_wp
  end.

Definition get_closest_waypoint (p : Pose) (waypoints : list Waypoint) : Z :=
  closest_scan p waypoints 0 Py.PosInf 0.

Definition get_next_waypoint (p : Pose) (waypoints : list Waypoint)
  : Py.Result Z :=
  let closest_wp := get_closest_waypoint p waypoints in
  w <- Py.getitem waypoints closest_wp ;;
  let wp_x := x (position (pose w)) in
  let wp_y := y (position (pose w)) in
  let heading := Py.atan2 (wp_y - y (position p)) (wp_x - x (position p)) in
  let theta := euler_yaw (orientation p) in
  let angle := Rabs (theta - heading) in
  if Py.fgt angle (PI / 4)
  then Py.Ok (closest_wp + 1)%Z
  else Py.Ok closest_wp.

(** *** The window *)

(** The speed of the waypoint of loop index [i] while braking; [dist] is its
    distance to [waypoints[end_wp]]. *)
Definition braking_speed (v : R) (i : Z) (dist : R) : R :=
  if Py.fgt dist STOP_BUFFER && Py.flt v 3 then 3
  else if Py.fle dist STOP_BUFFER then 0
  else if Py.fgt (v - IZR i) 3 then v - IZR i * 0.5
  else 3.

(** One iteration of the loop of [get_final_waypoints]. *)
Definition final_waypoint (s : Node) (waypoints : list Waypoint) (end_wp : Z)
           (i : Z) : Py.Result Waypoint :=
  index <- Py.mod_ i (Z.of_nat (length waypoints)) ;;
  src <- Py.getitem waypoints index ;;
  let pos := mkPoint (x (position (pose src))) (y (position (pose src)))
                     (z (position (pose src))) in
  let ori := orientation (pose src) in
  if negb (braking s)
  then Py.Ok (mkWaypoint (mkPose pos ori) 15)
  else
    stop <- Py.getitem waypoints end_wp ;;
    let dist := distance pos (position (pose stop)) in
    Py.Ok (mkWaypoint (mkPose pos ori)
                      (braking_speed (current_velocity s) i dist)).

Definition get_final_waypoints (s : Node) (waypoints : list Waypoint)
           (start_wp end_wp : Z) : Py.Result (list Waypoint) :=
  Py.for_each (final_waypoint s waypoints end_wp) (Py.range start_wp end_wp).

(** *** One tick *)

Inductive Outcome : Type :=
| Skipped
| Published (lane : list Waypoint)
| Raised (e : Py.Error).

Definition publish (s : Node) (r : Py.Result (list Waypoint))
  : Node * Outcome :=
  match r with
  | Py.Ok lane => (s, Published lane)
  | Py.Raise e => (s, Raised e)
  end.

Definition min_stopping_dist (v : R) : R :=
  v ^ 2 / (2 * MAX_DECEL) + STOP_BUFFER.

Definition loop (s : Node) : Node * Outcome :=
  match base_waypoints s, current_pose s with
  | Some wpts, Some p =>
      match get_next_waypoint p wpts with
      | Py.Raise e => (s, Raised e)
      | Py.Ok next_wp =>
          let traffic_wp := traffic_waypoint s in
          match Py.getitem wpts traffic_wp with
          | Py.Raise e => (s, Raised e)
          | Py.Ok stop =>
              let tl_dist := distance (position p) (position (pose stop)) in
              if (traffic_wp =? -1)%Z then
                let s1 := set_braking s false in
                publish s1 (get_final_waypoints s1 wpts next_wp
                                                (next_wp + LOOKAHEAD_WPS))
              else if negb (braking s)
                      && Py.flt tl_dist (min_stopping_dist (current_velocity s))
              then
                publish s (get_final_waypoints s wpts next_wp
                                               (next_wp + LOOKAHEAD_WPS))
              else
                let s1 := set_braking s true in
                publish s1 (get_final_waypoints s1 wpts next_wp traffic_wp)
          end
      end
  | _, _ => (s, Skipped)
  end.

(** The window request of a tick: the node as [get_final_waypoints] sees it
    (the braking flag is written before the call), the path and the bounds
    [start_wp], [end_wp] that [loop] passes at the call site it reaches;
    [None] when the tick is skipped or raises before any call. *)
Definition loop_call (s : Node) : option (Node * list Waypoint * Z * Z) :=
  match base_waypoints s, current_pose s with
  | Some wpts, Some p =>
      match get_next_waypoint p wpts with
      | Py.Raise _ => None
      | Py.Ok next_wp =>
          let traffic_wp := traffic_waypoint s in
          match Py.getitem wpts traffic_wp with
          | Py.Raise _ => None
          | Py.Ok stop =>
              let tl_dist := distance (position p) (position (pose stop)) in
              if (traffic_wp =? -1)%Z then
                Some (set_braking s false, wpts, next_wp,
                      (next_wp + LOOKAHEAD_WPS)%Z)
              else if negb (braking s)
                      && Py.flt tl_dist (min_stopping_dist (current_velocity s))
              then
                Some (s, wpts, next_wp, (next_wp + LOOKAHEAD_WPS)%Z)
              else
                Some (set_braking s true, wpts, next_wp, traffic_wp)
          end
      end
  | _, _ => None
  end.

(** *** Runs of the node: messages and ticks in any interleaving *)

Inductive Event : Type :=
| Tick
| PoseMsg (msg : Pose)
| PathMsg (msg : list Waypoint)
| TrafficMsg (data : Z)
| VelocityMsg (v : R)
| ObstacleMsg (data : Z).

Definition step (s : Node) (e : Event) : Node * Outcome :=
  match e with
  | Tick => loop s
  | PoseMsg msg => (current_pose_cb s msg, Skipped)
  | PathMsg msg => (base_waypoints_cb s msg, Skipped)
  | TrafficMsg data => (traffic_waypoint_cb s data, Skipped)
  | VelocityMsg v => (current_velocity_cb s v, Skipped)
  | ObstacleMsg data => (obstacle_waypoint_cb s data, Skipped)
  end.

(** The state after a run; an exception that escapes [loop] ends the
    process, so the events after it are not handled. *)
Fixpoint run (s : Node) (es : list Event) : Node :=
  match es with
  | [] => s
  | e :: rest =>
      match step s e with
      | (s1, Raised _) => s1
      | (s1, _) => run s1 rest
      end
  end.

(** The readiness gate of [loop]: both attributes exist. *)
Definition ready (s : Node) : Prop :=
  (exists wps, base_waypoints s = Some wps) /\
  (exists p, current_pose s = Some p).

(** *** What one iteration builds

    The waypoint [get_final_waypoints] appends for the source waypoint [src]:
    a fresh message with the position and orientation of [src] and the given
    target speed. *)

Definition annotate (src : Waypoint) (speed : R) : Waypoint :=
  mkWaypoint
    (mkPose (mkPoint (x (position (pose src))) (y (position (pose src)))
                     (z (position (pose src))))
            (orientation (pose src)))
    speed.

(** The entry of loop index [i] in a cruise window over [wps]. *)
Definition cruise_entry (wps : list Waypoint) (i : Z) (w : Waypoint) : Prop :=
  exists src,
    nth_error wps (Z.to_nat (i mod Z.of_nat (length wps))) = Some src /\
    w = annotate src 15.

(** The entry of loop index [i] in a braking window over [wps] that ends at
    the waypoint [stop], at velocity [v]. *)
Definition braking_entry (wps : list Waypoint) (v : R) (stop : Waypoint)
           (i : Z) (w : Waypoint) : Prop :=
  exists src,
    nth_error wps (Z.to_nat (i mod Z.of_nat (length wps))) = Some src /\
    w = annotate src
          (braking_speed v i
             (distance (position (pose src)) (position (pose stop)))).

(** The shape of the window for the request [[start_wp, end_wp)] over [wps]:
    [end_wp - start_wp] waypoints, the one at offset [k] with the position
    and the orientation of [wps[(start_wp + k) mod L]]. *)
Definition window_over (wps : list Waypoint) (start_wp end_wp : Z)
           (lane : list Waypoint) : Prop :=
  Z.of_nat (length lane) = (end_wp - start_wp)%Z /\
  forall k : Z,
    (0 <= k < end_wp - start_wp)%Z ->
    exists w src,
      nth_error lane (Z.to_nat k) = Some w /\
      nth_error wps (Z.to_nat ((start_wp + k) mod Z.of_nat (length wps)))
      = Some src /\
      position (pose w) = position (pose src) /\
      orientation (pose w) = orientation (pose src).

(** Two paths with the same poses, waypoint by waypoint (their speeds may
    differ). *)
Definition same_poses (wps wps' : list Waypoint) : Prop :=
  Forall2 (fun w w' => pose w = pose w') wps wps'.

(** ** The braking decision in the words of the specification

    The state machine of the specification: [CRUISING] is kept while the
    stop is at least the stopping distance away. *)

Inductive BrakingState : Type :=
| CRUISING
| BRAKING.

Definition spec_min_stopping_distance (v : R) : R := v * v / (2 * 4) + 5.

Definition spec_transition (state : BrakingState) (stop_signal : option Z)
           (distance_to_stop v : R) : BrakingState :=
  match stop_signal, state with
  | None, _ => CRUISING
  | Some _, CRUISING =>
      if Py.fge distance_to_stop (spec_min_stopping_distance v)
      then CRUISING
      else BRAKING
  | Some _, BRAKING => BRAKING
  end.

(** The state of the machine and the stop signal, as the node stores them. *)
Definition state_of (s : Node) : BrakingState :=
  if braking s then BRAKING else CRUISING.

Definition stop_signal_of (s : Node) : option Z :=
  if (traffic_waypoint s =? -1)%Z then None else Some (traffic_waypoint s).

(** ** The speed rule in the words of the specification

    The specification numbers the waypoints of a braking window by their
    0-based offset from [next_wp] and uses that offset in the decay branch. *)

Definition creep_threshold : R := 3.
Definition creep_speed : R := 3.

Definition spec_braking_speed (v : R) (offset : Z) (dist : R) : R :=
  if Py.fgt dist STOP_BUFFER && Py.flt v creep_threshold then creep_speed
  else if Py.fle dist STOP_BUFFER then 0
  else if Py.fgt (v - IZR offset) 3 then v - IZR offset * 0.5
  else 3.

(** ** The scenarios of the specification

    A straight path along the x-axis with one waypoint per metre, and a
    vehicle on the axis that looks along it. *)

Definition facing_x : Quaternion := mkQuaternion 0 0 0 1.

Definition on_axis (a : R) : Pose := mkPose (mkPoint a 0 0) facing_x.

Definition straight_path (n : nat) : list Waypoint :=
  map (fun k => mkWaypoint (on_axis (INR k)) 0) (seq 0 n).

Definition scenario (n : nat) (a v : R) (stop : Z) (b : bool) : Node :=
  {| base_waypoints := Some (straight_path n);
     current_pose := Some (on_axis a);
     obstacle_waypoint := None;
     current_velocity := v;
     decel := 1;
     traffic_waypoint := stop;
     braking := b |}.

(** Scenario A: vehicle at x = 0, velocity 5, stop index 200, cruising. *)
Definition scenario_A : Node := scenario 300 0 5 200 false.

(** Scenario A in the words of the specification: the node keeps cruising
    and publishes 200 waypoints at speed 15. *)
Definition scenario_A_as_specified : Prop :=
  exists lane,
    snd (loop scenario_A) = Published lane /\
    state_of (fst (loop scenario_A)) = CRUISING /\
    length lane = 200%nat /\
    Forall (fun w => linear_x w = 15) lane.

(** The speeds the code publishes in Scenario A, by offset. *)
Definition scenario_A_profile (k : nat) : R :=
  if (k =? 0)%nat then 5
  else if (k =? 1)%nat then 4.5
  else if (k <? 195)%nat then 3
  else 0.

(** Scenario B: vehicle at x = 194, velocity 5, stop index 200. *)
Definition scenario_B (b : bool) : Node := scenario 300 194 5 200 b.

(** Two ticks at standstill on a path of 11 waypoints, vehicle at x = 0 and
    cruising: the stop index is 10 (far) or 2 (near). *)
Definition far_stop : Node := scenario 11 0 0 10 false.
Definition near_stop : Node := scenario 11 0 0 2 false.

(** A run that ends with the node braking for stop index 10. *)
Definition run_to_braking : list Event :=
  [PathMsg (straight_path 11); PoseMsg (on_axis 0); TrafficMsg 10; Tick].

(** * Properties *)

(** ** Comparisons *)

Section Comparisons.

Variables a b : R.

Lemma flt_true : a < b -> Py.flt a b = true.
Proof. intros H; unfold Py.flt; destruct (Rlt_dec a b); [reflexivity | contradiction]. Qed.

Lemma flt_false : b <= a -> Py.flt a b = false.
Proof. intros H; unfold Py.flt; destruct (Rlt_dec a b); [lra | reflexivity]. Qed.

Lemma fle_true : a <= b -> Py.fle a b = true.
Proof. intros H; unfold Py.fle; destruct (Rle_dec a b); [reflexivity | contradiction]. Qed.

Lemma fle_false : b < a -> Py.fle a b = false.
Proof. intros H; unfold Py.fle; destruct (Rle_dec a b); [lra | reflexivity]. Qed.

Lemma fgt_true : a > b -> Py.fgt a b = true.
Proof. intros H; unfold Py.fgt; destruct (Rgt_dec a b); [reflexivity | contradiction]. Qed.

Lemma fgt_false : a <= b -> Py.fgt a b = false.
Proof. intros H; unfold Py.fgt; destruct (Rgt_dec a b); [lra | reflexivity]. Qed.

Lemma flt_cases : (a < b /\ Py.flt a b = true) \/ (b <= a /\ Py.flt a b = false).
Proof. destruct (Rlt_le_dec a b); [left | right]; auto using flt_true, flt_false. Qed.

Lemma fle_cases : (a <= b /\ Py.fle a b = true) \/ (b < a /\ Py.fle a b = false).
Proof. destruct (Rle_lt_dec a b); [left | right]; auto using fle_true, fle_false. Qed.

Lemma fgt_cases : (a > b /\ Py.fgt a b = true) \/ (a <= b /\ Py.fgt a b = false).
Proof. destruct (Rle_lt_dec a b); [right | left]; auto using fgt_true, fgt_false. Qed.

End Comparisons.

(** Settles the comparisons of a goal whose operands [lra] can order. *)
Ltac settle_cmp :=
  repeat match goal with
    | |- context [Py.flt ?a ?b] =>
        first [ rewrite (flt_true a b) by lra | rewrite (flt_false a b) by lra ]
    | |- context [Py.fle ?a ?b] =>
        first [ rewrite (fle_true a b) by lra | rewrite (fle_false a b) by lra ]
    | |- context [Py.fgt ?a ?b] =>
        first [ rewrite (fgt_true a b) by lra | rewrite (fgt_false a b) by lra ]
    end.

(** ** Lists, ranges and indexing *)

Lemma getitem_nonneg {A : Type} (l : list A) (i : Z) (a : A) :
  nth_error l (Z.to_nat i) = Some a -> (0 <= i)%Z -> Py.getitem l i = Py.Ok a.
Proof.
  intros Hn Hi. unfold Py.getitem.
  assert (Hlt : (Z.to_nat i < length l)%nat)
    by (apply nth_error_Some; rewrite Hn; discriminate).
  destruct (Z.ltb_spec i 0); [lia |].
  destruct (Z.leb_spec 0 i); [| lia].
  destruct (Z.ltb_spec i (Z.of_nat (length l))); [| lia].
  simpl. now rewrite Hn.
Qed.

Lemma getitem_Ok_inv {A : Type} (l : list A) (i : Z) (a : A) :
  Py.getitem l i = Py.Ok a ->
  (- Z.of_nat (length l) <= i < Z.of_nat (length l))%Z /\
  nth_error l (Z.to_nat (if (i <? 0)%Z then Z.of_nat (length l) + i else i))
  = Some a.
Proof.
  unfold Py.getitem. intros H.
  destruct (Z.ltb_spec i 0);
    match type of H with
    | (if (?c1 && ?c2)%bool then _ else _) = _ =>
        destruct (Z.leb_spec 0 (Z.of_nat (length l) + i));
        destruct (Z.leb_spec 0 i);
        destruct (Z.ltb_spec (Z.of_nat (length l) + i) (Z.of_nat (length l)));
        destruct (Z.ltb_spec i (Z.of_nat (length l)))
    end; simpl in H; try discriminate;
    (split; [lia |]);
    match type of H with
    | match ?o with _ => _ end = _ => destruct o; [congruence | discriminate]
    end.
Qed.

Lemma getitem_in_range {A : Type} (l : list A) (i : Z) :
  (0 <= i < Z.of_nat (length l))%Z ->
  exists a, nth_error l (Z.to_nat i) = Some a /\ Py.getitem l i = Py.Ok a.
Proof.
  intros Hi.
  destruct (nth_error l (Z.to_nat i)) as [a |] eqn:E.
  - exists a. split; [reflexivity |]. apply getitem_nonneg; [exact E | lia].
  - apply nth_error_None in E. lia.
Qed.

Lemma getitem_valid {A : Type} (l : list A) (i : Z) :
  (- Z.of_nat (length l) <= i < Z.of_nat (length l))%Z ->
  exists a, Py.getitem l i = Py.Ok a.
Proof.
  intros Hi. unfold Py.getitem.
  destruct (Z.ltb_spec i 0);
    match goal with
    | |- context [nth_error l ?k] =>
        destruct (nth_error l k) eqn:En; [| apply nth_error_None in En]
    end;
    match goal with
    | |- context [(?a <=? ?b)%Z] => destruct (Z.leb_spec a b)
    end;
    match goal with
    | |- context [(?a <? ?b)%Z] => destruct (Z.ltb_spec a b)
    end; simpl; try lia; now eexists.
Qed.

Lemma getitem_invalid {A : Type} (l : list A) (i : Z) :
  (i < - Z.of_nat (length l) \/ Z.of_nat (length l) <= i)%Z ->
  Py.getitem l i = Py.Raise Py.IndexError.
Proof.
  intros Hi. unfold Py.getitem.
  match goal with
  | |- (if ?c then _ else _) = _ => replace c with false; [reflexivity |]
  end.
  symmetry. apply andb_false_iff. rewrite Z.leb_gt, Z.ltb_ge.
  destruct (Z.ltb_spec i 0); lia.
Qed.

Lemma range_length (lo hi : Z) :
  length (Py.range lo hi) = Z.to_nat (hi - lo).
Proof. unfold Py.range. now rewrite length_map, length_seq. Qed.

Lemma range_nth_error (lo hi : Z) (k : nat) :
  (k < Z.to_nat (hi - lo))%nat ->
  nth_error (Py.range lo hi) k = Some (lo + Z.of_nat k)%Z.
Proof.
  intros Hk. unfold Py.range.
  rewrite nth_error_map, nth_error_seq.
  destruct (Nat.ltb_spec k (Z.to_nat (hi - lo))); [reflexivity | lia].
Qed.

Lemma range_empty (lo hi : Z) : (hi <= lo)%Z -> Py.range lo hi = [].
Proof.
  intros H. unfold Py.range.
  replace (Z.to_nat (hi - lo)) with 0%nat by lia. reflexivity.
Qed.

(** A loop whose body never raises on the list returns one result per
    element, in order. *)
Lemma for_each_Ok_rel {A B : Type} (body : A -> Py.Result B)
      (P : A -> B -> Prop) (l : list A) :
  (forall a, In a l -> exists b, body a = Py.Ok b /\ P a b) ->
  exists bs, Py.for_each body l = Py.Ok bs /\ Forall2 P l bs.
Proof.
  induction l as [| a rest IH]; intros H; simpl.
  - exists []. split; [reflexivity | constructor].
  - destruct (H a (or_introl eq_refl)) as (b & Hb & HP).
    destruct IH as (bs & Hbs & HF); [intros a' Ha'; apply H; now right |].
    exists (b :: bs). rewrite Hb; simpl. rewrite Hbs; simpl.
    split; [reflexivity | now constructor].
Qed.

Lemma for_each_Raise {A B : Type} (body : A -> Py.Result B) (a : A)
      (rest : list A) (e : Py.Error) :
  body a = Py.Raise e -> Py.for_each body (a :: rest) = Py.Raise e.
Proof. intros H. simpl. now rewrite H. Qed.

Lemma in_range (lo hi i : Z) :
  In i (Py.range lo hi) <-> (lo <= i < hi)%Z.
Proof.
  unfold Py.range. rewrite in_map_iff. split.
  - intros (k & <- & Hk). apply in_seq in Hk. lia.
  - intros Hi. exists (Z.to_nat (i - lo)). split; [lia |].
    apply in_seq. lia.
Qed.

(** ** The nearest-waypoint scan *)

Section Scan.

Variable p : Pose.

Let d (w : Waypoint) : R := distance (position p) (position (pose w)).

Lemma distance_nonneg (p1 p2 : Point) : 0 <= distance p1 p2.
Proof. unfold distance. apply sqrt_pos. Qed.

Lemma flt_inf_trans (a b : R) (c : Py.float_inf) :
  a <= b -> Py.flt_inf b c = true -> Py.flt_inf a c = true.
Proof.
  destruct c as [r |]; simpl; [| reflexivity].
  intros Hab Hb. destruct (flt_cases b r) as [[H _] | [_ H]]; [| congruence].
  apply flt_true. lra.
Qed.

Lemma flt_inf_false (a : R) (c : Py.float_inf) :
  Py.flt_inf a c = false -> exists r, c = Py.Finite r /\ r <= a.
Proof.
  destruct c as [r |]; simpl; [| discriminate].
  intros H. exists r. split; [reflexivity |].
  destruct (flt_cases a r) as [[_ H'] | [H' _]]; [congruence | exact H'].
Qed.

(** What the scan returns: either nothing in [wps] beats the incoming
    [closest_dist] and [closest_wp] is kept, or the result is the position of
    the first element of least distance, which beats [closest_dist]. *)
Lemma closest_scan_spec (wps : list Waypoint) :
  forall (i : Z) (cd : Py.float_inf) (cw : Z),
    (closest_scan p wps i cd cw = cw /\
     forall w, In w wps -> Py.flt_inf (d w) cd = false)
    \/
    (exists (k : nat) (w : Waypoint),
        nth_error wps k = Some w /\
        closest_scan p wps i cd cw = (i + Z.of_nat k)%Z /\
        Py.flt_inf (d w) cd = true /\
        (forall j wj, nth_error wps j = Some wj -> d w <= d wj) /\
        (forall j wj, (j < k)%nat -> nth_error wps j = Some wj -> d w < d wj)).
Proof.
  induction wps as [| w rest IH]; intros i cd cw.
  - left. split; [reflexivity | intros w []].
  - simpl. fold (d w). destruct (Py.flt_inf (d w) cd) eqn:Hw.
    + right. destruct (IH (i + 1)%Z (Py.Finite (d w)) i) as [[Hr Hall] | Hex].
      * exists 0%nat, w. repeat split.
        -- rewrite Hr. lia.
        -- exact Hw.
        -- intros [| j] wj Hj; simpl in Hj.
           ++ injection Hj as <-. lra.
           ++ apply nth_error_In, Hall, flt_inf_false in Hj.
              destruct Hj as (r & Hr' & Hle). injection Hr' as <-. exact Hle.
        -- intros j wj Hj. lia.
      * destruct Hex as (k & w' & Hk & Hr & Hlt & Hmin & Hfirst).
        simpl in Hlt.
        destruct (flt_cases (d w') (d w)) as [[Hlt' _] | [_ Hc]]; [| congruence].
        exists (S k), w'. repeat split.
        -- exact Hk.
        -- rewrite Hr. lia.
        -- apply flt_inf_trans with (b := d w); [lra | exact Hw].
        -- intros [| j] wj Hj; simpl in Hj.
           ++ injection Hj as <-. lra.
           ++ eapply Hmin; eassumption.
        -- intros [| j] wj Hlt'' Hj; simpl in Hj.
           ++ injection Hj as <-. exact Hlt'.
           ++ apply (Hfirst j); [lia | exact Hj].
    + destruct (flt_inf_false _ _ Hw) as (c & -> & Hc).
      destruct (IH (i + 1)%Z (Py.Finite c) cw) as [[Hr Hall] | Hex].
      * left. split; [exact Hr |].
        intros w' [<- | Hin]; [exact Hw | now apply Hall].
      * right. destruct Hex as (k & w' & Hk & Hr & Hlt & Hmin & Hfirst).
        simpl in Hlt.
        destruct (flt_cases (d w') c) as [[Hlt' _] | [_ Hc']]; [| congruence].
        exists (S k), w'. repeat split.
        -- exact Hk.
        -- rewrite Hr. lia.
        -- simpl. apply flt_true. exact Hlt'.
        -- intros [| j] wj Hj; simpl in Hj.
           ++ injection Hj as <-. lra.
           ++ eapply Hmin; eassumption.
        -- intros [| j] wj Hlt'' Hj; simpl in Hj.
           ++ injection Hj as <-. lra.
           ++ apply (Hfirst j); [lia | exact Hj].
Qed.

(** On a non-empty path the scan returns the first index of least distance. *)
Lemma get_closest_waypoint_first_min (wps : list Waypoint) :
  wps <> [] ->
  exists (k : nat) (w : Waypoint),
    get_closest_waypoint p wps = Z.of_nat k /\
    nth_error wps k = Some w /\
    (forall j wj, nth_error wps j = Some wj -> d w <= d wj) /\
    (forall j wj, (j < k)%nat -> nth_error wps j = Some wj -> d w < d wj).
Proof.
  intros Hne. unfold get_closest_waypoint.
  destruct (closest_scan_spec wps 0 Py.PosInf 0) as [[_ Hall] | Hex].
  - destruct wps as [| w rest]; [contradiction |].
    specialize (Hall w (or_introl eq_refl)). discriminate.
  - destruct Hex as (k & w & Hk & Hr & _ & Hmin & Hfirst).
    exists k, w. repeat split; assumption.
Qed.

End Scan.

(** ** The window *)

Lemma annotate_position (src : Waypoint) (speed : R) :
  position (pose (annotate src speed)) = position (pose src).
Proof. destruct src as [[[? ? ?] ?] ?]. reflexivity. Qed.

Lemma annotate_orientation (src : Waypoint) (speed : R) :
  orientation (pose (annotate src speed)) = orientation (pose src).
Proof. reflexivity. Qed.

Lemma annotate_speed (src : Waypoint) (speed : R) :
  linear_x (annotate src speed) = speed.
Proof. reflexivity. Qed.

Lemma Forall2_nth_error_l {A B : Type} (P : A -> B -> Prop)
      (l : list A) (l' : list B) :
  Forall2 P l l' ->
  forall k a, nth_error l k = Some a ->
              exists b, nth_error l' k = Some b /\ P a b.
Proof.
  induction 1 as [| a0 b0 l l' H0 HF IH]; intros [| k] a Hk; simpl in *;
    try discriminate.
  - injection Hk as <-. now exists b0.
  - now apply IH.
Qed.

Lemma Forall2_Forall_r {A B : Type} (P : A -> B -> Prop) (Q : B -> Prop)
      (l : list A) (l' : list B) :
  Forall2 P l l' -> (forall a b, P a b -> Q b) -> Forall Q l'.
Proof. induction 1; intros HPQ; constructor; eauto. Qed.

Section Window.

Variable s : Node.
Variable wps : list Waypoint.
Hypothesis wps_nonempty : wps <> [].

Let L : Z := Z.of_nat (length wps).

Lemma path_length_pos : (0 < L)%Z.
Proof.
  subst L. destruct wps; [contradiction | simpl length; lia].
Qed.

(** The source waypoint of loop index [i] exists: [i % L] is an index. *)
Lemma wrapped_index (i : Z) :
  exists src,
    nth_error wps (Z.to_nat (i mod L)) = Some src /\
    Py.getitem wps (i mod L) = Py.Ok src.
Proof.
  apply getitem_in_range. pose proof path_length_pos.
  apply Z.mod_pos_bound. assumption.
Qed.

Lemma mod_Ok (i : Z) : Py.mod_ i L = Py.Ok (i mod L)%Z.
Proof.
  unfold Py.mod_. pose proof path_length_pos.
  destruct (Z.eqb_spec L 0); [lia | reflexivity].
Qed.

Lemma final_waypoint_cruise (end_wp i : Z) :
  braking s = false ->
  exists w, final_waypoint s wps end_wp i = Py.Ok w /\ cruise_entry wps i w.
Proof.
  intros Hb. destruct (wrapped_index i) as (src & Hn & Hg).
  exists (annotate src 15). split.
  - unfold final_waypoint. fold L. rewrite mod_Ok. simpl.
    rewrite Hg. simpl. rewrite Hb. reflexivity.
  - exists src. split; [exact Hn | reflexivity].
Qed.

Lemma final_waypoint_braking (end_wp i : Z) (stop : Waypoint) :
  braking s = true ->
  Py.getitem wps end_wp = Py.Ok stop ->
  exists w, final_waypoint s wps end_wp i = Py.Ok w /\
            braking_entry wps (current_velocity s) stop i w.
Proof.
  intros Hb Hstop. destruct (wrapped_index i) as (src & Hn & Hg).
  exists (annotate src (braking_speed (current_velocity s) i
                          (distance (position (pose src))
                                    (position (pose stop))))).
  split.
  - unfold final_waypoint. fold L. rewrite mod_Ok. simpl.
    rewrite Hg. simpl. rewrite Hb. simpl. rewrite Hstop. simpl.
    unfold annotate. destruct src as [[[? ? ?] ?] ?]. reflexivity.
  - exists src. split; [exact Hn | reflexivity].
Qed.

(** While braking, the first iteration raises when [end_wp] is no index. *)
Lemma final_waypoint_braking_raise (end_wp i : Z) :
  braking s = true ->
  Py.getitem wps end_wp = Py.Raise Py.IndexError ->
  final_waypoint s wps end_wp i = Py.Raise Py.IndexError.
Proof.
  intros Hb Hstop. destruct (wrapped_index i) as (src & Hn & Hg).
  unfold final_waypoint. fold L. rewrite mod_Ok. simpl.
  rewrite Hg. simpl. rewrite Hb. simpl. rewrite Hstop. reflexivity.
Qed.

Lemma get_final_waypoints_cruise (start_wp end_wp : Z) :
  braking s = false ->
  exists lane,
    get_final_waypoints s wps start_wp end_wp = Py.Ok lane /\
    Forall2 (cruise_entry wps) (Py.range start_wp end_wp) lane.
Proof.
  intros Hb. unfold get_final_waypoints. apply for_each_Ok_rel.
  intros i _. now apply final_waypoint_cruise.
Qed.

Lemma get_final_waypoints_braking (start_wp end_wp : Z) (stop : Waypoint) :
  braking s = true ->
  Py.getitem wps end_wp = Py.Ok stop ->
  exists lane,
    get_final_waypoints s wps start_wp end_wp = Py.Ok lane /\
    Forall2 (braking_entry wps (current_velocity s) stop)
            (Py.range start_wp end_wp) lane.
Proof.
  intros Hb Hstop. unfold get_final_waypoints. apply for_each_Ok_rel.
  intros i _. now apply final_waypoint_braking.
Qed.

(** While braking, a non-empty window whose end is no index of the path is
    not returned. [loop] makes no such request: it reads the path at the stop
    index before it brakes. *)
Lemma get_final_waypoints_braking_raises (start_wp end_wp : Z) :
  braking s = true ->
  (start_wp < end_wp)%Z ->
  (end_wp < - L \/ L <= end_wp)%Z ->
  get_final_waypoints s wps start_wp end_wp = Py.Raise Py.IndexError.
Proof.
  intros Hb Hlt Hout. unfold get_final_waypoints.
  destruct (Py.range start_wp end_wp) as [| i rest] eqn:E.
  - apply (f_equal (@length _)) in E. rewrite range_length in E.
    simpl in E. lia.
  - apply for_each_Raise. apply final_waypoint_braking_raise; [exact Hb |].
    now apply getitem_invalid.
Qed.

End Window.

Lemma for_each_inv {A B : Type} (body : A -> Py.Result B) (l : list A) :
  forall bs, Py.for_each body l = Py.Ok bs ->
             Forall2 (fun a b => body a = Py.Ok b) l bs.
Proof.
  induction l as [| a rest IH]; simpl; intros bs H.
  - injection H as <-. constructor.
  - destruct (body a) as [b | e] eqn:Hb; simpl in H; [| discriminate].
    destruct (Py.for_each body rest) as [bs' | e] eqn:Hr; simpl in H;
      [| discriminate].
    injection H as <-. constructor; [exact Hb | now apply IH].
Qed.

(** Whatever one iteration returns carries one of the two kinds of speed. *)
Lemma final_waypoint_speed (s : Node) (wps : list Waypoint) (end_wp i : Z)
      (w : Waypoint) :
  final_waypoint s wps end_wp i = Py.Ok w ->
  (braking s = false /\ linear_x w = 15) \/
  (braking s = true /\
   exists stop,
     Py.getitem wps end_wp = Py.Ok stop /\
     linear_x w
     = braking_speed (current_velocity s) i
                     (distance (position (pose w)) (position (pose stop)))).
Proof.
  unfold final_waypoint. intros H.
  destruct (Py.mod_ i (Z.of_nat (length wps))) as [index | e]; simpl in H;
    [| discriminate].
  destruct (Py.getitem wps index) as [src | e]; simpl in H; [| discriminate].
  destruct (braking s); simpl in H.
  - destruct (Py.getitem wps end_wp) as [stop | e]; simpl in H;
      [| discriminate].
    injection H as <-. right. split; [reflexivity |].
    exists stop. split; reflexivity.
  - injection H as <-. left. split; reflexivity.
Qed.

Lemma get_final_waypoints_speeds (s : Node) (wps : list Waypoint)
      (start_wp end_wp : Z) (lane : list Waypoint) :
  get_final_waypoints s wps start_wp end_wp = Py.Ok lane ->
  Forall (fun w =>
            (braking s = false /\ linear_x w = 15) \/
            (braking s = true /\
             exists i stop,
               Py.getitem wps end_wp = Py.Ok stop /\
               linear_x w
               = braking_speed (current_velocity s) i
                   (distance (position (pose w)) (position (pose stop)))))
         lane.
Proof.
  intros H. apply for_each_inv in H.
  apply (Forall2_Forall_r _ _ _ _ H). intros i w Hw.
  destruct (final_waypoint_speed _ _ _ _ _ Hw) as [Hc | [Hb (stop & Hs & Hx)]];
    [now left | right].
  split; [exact Hb |]. now exists i, stop.
Qed.

(** ** The speed rule *)

Lemma braking_speed_cases (v : R) (i : Z) (dist : R) :
  (dist > STOP_BUFFER /\ v < 3 /\ braking_speed v i dist = 3) \/
  (dist <= STOP_BUFFER /\ braking_speed v i dist = 0) \/
  (dist > STOP_BUFFER /\ 3 <= v /\ v - IZR i > 3 /\
   braking_speed v i dist = v - IZR i * 0.5) \/
  (dist > STOP_BUFFER /\ 3 <= v /\ v - IZR i <= 3 /\
   braking_speed v i dist = 3).
Proof.
  unfold braking_speed.
  destruct (fgt_cases dist STOP_BUFFER) as [[Hd E1] | [Hd E1]];
    destruct (flt_cases v 3) as [[Hv E2] | [Hv E2]];
    destruct (fle_cases dist STOP_BUFFER) as [[Hd' E3] | [Hd' E3]];
    destruct (fgt_cases (v - IZR i) 3) as [[Hg E4] | [Hg E4]];
    rewrite E1, E2; cbn [andb]; cbv iota; rewrite ?E3; cbv iota;
    rewrite ?E4; cbv iota; try lra; auto 10.
Qed.

Lemma braking_speed_zero_or_fast (v : R) (i : Z) (dist : R) :
  (braking_speed v i dist = 0 /\ dist <= STOP_BUFFER) \/
  3 <= braking_speed v i dist.
Proof.
  destruct (braking_speed_cases v i dist)
    as [(_ & _ & ->) | [(H & ->) | [(_ & Hv & Hg & ->) | (_ & _ & _ & ->)]]];
    [right | left | right | right]; try lra.
Qed.

Lemma braking_speed_nonneg (v : R) (i : Z) (dist : R) :
  0 <= braking_speed v i dist.
Proof. destruct (braking_speed_zero_or_fast v i dist) as [[-> _] | H]; lra. Qed.

(** ** One tick *)

Lemma getitem_nonempty {A : Type} (l : list A) (i : Z) (a : A) :
  Py.getitem l i = Py.Ok a -> l <> [].
Proof.
  intros H ->. apply getitem_Ok_inv in H. simpl in H. lia.
Qed.

(** On a non-empty path the locator returns the closest index, advanced by
    one when the bearing to it is more than [PI / 4] off the yaw. *)
Lemma get_next_waypoint_rule (p : Pose) (wps : list Waypoint) :
  wps <> [] ->
  exists w,
    nth_error wps (Z.to_nat (get_closest_waypoint p wps)) = Some w /\
    (0 <= get_closest_waypoint p wps < Z.of_nat (length wps))%Z /\
    get_next_waypoint p wps =
      Py.Ok (if Py.fgt (Rabs (euler_yaw (orientation p)
                              - Py.atan2 (y (position (pose w)) - y (position p))
                                         (x (position (pose w)) - x (position p))))
                       (PI / 4)
             then (get_closest_waypoint p wps + 1)%Z
             else get_closest_waypoint p wps).
Proof.
  intros Hne.
  destruct (get_closest_waypoint_first_min p wps Hne) as (k & w & Hk & Hn & _).
  exists w. rewrite Hk, Nat2Z.id. split; [exact Hn |].
  assert (Hlt : (k < length wps)%nat)
    by (apply nth_error_Some; rewrite Hn; discriminate).
  split; [lia |].
  unfold get_next_waypoint. rewrite Hk.
  rewrite (getitem_nonneg wps (Z.of_nat k) w) by (rewrite ?Nat2Z.id; auto; lia).
  simpl.
  destruct (Py.fgt _ _); reflexivity.
Qed.

Lemma get_next_waypoint_Ok (p : Pose) (wps : list Waypoint) :
  wps <> [] ->
  exists next, get_next_waypoint p wps = Py.Ok next /\
               (0 <= next <= Z.of_nat (length wps))%Z.
Proof.
  intros Hne. destruct (get_next_waypoint_rule p wps Hne) as (w & _ & Hr & ->).
  eexists. split; [reflexivity |]. destruct (Py.fgt _ _); lia.
Qed.

Lemma loop_not_ready (s : Node) :
  base_waypoints s = None \/ current_pose s = None -> loop s = (s, Skipped).
Proof.
  unfold loop. intros [H | H]; rewrite H; [| destruct (base_waypoints s)];
    reflexivity.
Qed.

Section Tick.

Variable s : Node.
Variable wps : list Waypoint.
Variable p : Pose.
Variable next_wp : Z.
Variable stop : Waypoint.

Hypothesis path_received : base_waypoints s = Some wps.
Hypothesis pose_received : current_pose s = Some p.
Hypothesis located : get_next_waypoint p wps = Py.Ok next_wp.
Hypothesis stop_indexed : Py.getitem wps (traffic_waypoint s) = Py.Ok stop.

Let tl_dist : R := distance (position p) (position (pose stop)).

Lemma path_nonempty : wps <> [].
Proof. exact (getitem_nonempty _ _ _ stop_indexed). Qed.

(** Branch 1: no stop index. *)
Lemma loop_no_signal :
  traffic_waypoint s = (-1)%Z ->
  exists lane,
    loop s = (set_braking s false, Published lane) /\
    Forall2 (cruise_entry wps)
            (Py.range next_wp (next_wp + LOOKAHEAD_WPS)) lane.
Proof.
  intros Ht.
  destruct (get_final_waypoints_cruise (set_braking s false) wps path_nonempty
              next_wp (next_wp + LOOKAHEAD_WPS) eq_refl) as (lane & Hl & HF).
  exists lane. split; [| exact HF].
  unfold loop. rewrite path_received, pose_received, located, stop_indexed.
  rewrite Ht. simpl Z.eqb. cbv iota. rewrite Hl. reflexivity.
Qed.

(** Branch 2: not braking, and the stop is nearer than the stopping
    distance. *)
Lemma loop_too_short :
  traffic_waypoint s <> (-1)%Z ->
  braking s = false ->
  tl_dist < min_stopping_dist (current_velocity s) ->
  exists lane,
    loop s = (s, Published lane) /\
    Forall2 (cruise_entry wps)
            (Py.range next_wp (next_wp + LOOKAHEAD_WPS)) lane.
Proof.
  intros Ht Hb Hd.
  destruct (get_final_waypoints_cruise s wps path_nonempty
              next_wp (next_wp + LOOKAHEAD_WPS) Hb) as (lane & Hl & HF).
  exists lane. split; [| exact HF].
  unfold loop. rewrite path_received, pose_received, located, stop_indexed.
  destruct (Z.eqb_spec (traffic_waypoint s) (-1)); [contradiction |].
  rewrite Hb. fold tl_dist. rewrite (flt_true _ _ Hd). simpl. rewrite Hl.
  reflexivity.
Qed.

(** Branch 3: already braking, or far enough to stop. *)
Lemma loop_stop :
  traffic_waypoint s <> (-1)%Z ->
  braking s = true \/ min_stopping_dist (current_velocity s) <= tl_dist ->
  exists lane,
    loop s = (set_braking s true, Published lane) /\
    Forall2 (braking_entry wps (current_velocity s) stop)
            (Py.range next_wp (traffic_waypoint s)) lane.
Proof.
  intros Ht Hc.
  destruct (get_final_waypoints_braking (set_braking s true) wps path_nonempty
              next_wp (traffic_waypoint s) stop eq_refl stop_indexed)
    as (lane & Hl & HF).
  exists lane. split; [| exact HF].
  unfold loop. rewrite path_received, pose_received, located, stop_indexed.
  destruct (Z.eqb_spec (traffic_waypoint s) (-1)); [contradiction |].
  fold tl_dist.
  replace (negb (braking s)
           && Py.flt tl_dist (min_stopping_dist (current_velocity s)))%bool
    with false.
  - rewrite Hl. reflexivity.
  - destruct Hc as [-> | Hc]; [reflexivity |].
    rewrite (flt_false _ _ Hc). now rewrite andb_false_r.
Qed.

End Tick.

(** A ready node with a non-empty path and a stop index that is [-1] or an
    index of the path publishes on its tick. *)
Lemma loop_ready (s : Node) (wps : list Waypoint) (p : Pose) :
  base_waypoints s = Some wps ->
  current_pose s = Some p ->
  wps <> [] ->
  (- Z.of_nat (length wps) <= traffic_waypoint s < Z.of_nat (length wps))%Z ->
  exists next_wp stop,
    get_next_waypoint p wps = Py.Ok next_wp /\
    Py.getitem wps (traffic_waypoint s) = Py.Ok stop.
Proof.
  intros Hw Hp Hne Hr.
  destruct (get_next_waypoint_Ok p wps Hne) as (next & Hn & _).
  destruct (getitem_valid wps (traffic_waypoint s) Hr) as (stop & Hs).
  now exists next, stop.
Qed.

(** Every published window comes from one of the three branches. *)
Lemma loop_published_inv (s s' : Node) (lane : list Waypoint) :
  loop s = (s', Published lane) ->
  exists wps p next_wp stop,
    base_waypoints s = Some wps /\
    current_pose s = Some p /\
    get_next_waypoint p wps = Py.Ok next_wp /\
    Py.getitem wps (traffic_waypoint s) = Py.Ok stop /\
    ((traffic_waypoint s = (-1)%Z /\ s' = set_braking s false /\
      get_final_waypoints s' wps next_wp (next_wp + LOOKAHEAD_WPS)
      = Py.Ok lane)
     \/
     (traffic_waypoint s <> (-1)%Z /\ braking s = false /\ s' = s /\
      distance (position p) (position (pose stop))
      < min_stopping_dist (current_velocity s) /\
      get_final_waypoints s' wps next_wp (next_wp + LOOKAHEAD_WPS)
      = Py.Ok lane)
     \/
     (traffic_waypoint s <> (-1)%Z /\ s' = set_braking s true /\
      (braking s = true \/
       min_stopping_dist (current_velocity s)
       <= distance (position p) (position (pose stop))) /\
      get_final_waypoints s' wps next_wp (traffic_waypoint s) = Py.Ok lane)).
Proof.
  unfold loop. intros H.
  destruct (base_waypoints s) as [wps |]; [| discriminate].
  destruct (current_pose s) as [p |]; [| discriminate].
  destruct (get_next_waypoint p wps) as [next_wp | e] eqn:Hn; [| discriminate].
  destruct (Py.getitem wps (traffic_waypoint s)) as [stop | e] eqn:Hs;
    [| discriminate].
  exists wps, p, next_wp, stop.
  repeat (split; [first [reflexivity | assumption] |]).
  destruct (Z.eqb_spec (traffic_waypoint s) (-1)) as [Ht | Ht].
  - left.
    destruct (get_final_waypoints _ wps next_wp (next_wp + LOOKAHEAD_WPS))
      as [l | e] eqn:E; simpl in H; [| discriminate].
    injection H as <- <-. auto.
  - right. destruct (braking s) eqn:Hb; simpl in H.
    + right.
      destruct (get_final_waypoints _ wps next_wp (traffic_waypoint s))
        as [l | e] eqn:E; simpl in H; [| discriminate].
      injection H as <- <-. auto.
    + destruct (flt_cases (distance (position p) (position (pose stop)))
                  (min_stopping_dist (current_velocity s)))
        as [[Hd Hf] | [Hd Hf]]; rewrite Hf in H.
      * left.
        destruct (get_final_waypoints _ wps next_wp (next_wp + LOOKAHEAD_WPS))
          as [l | e] eqn:E; simpl in H; [| discriminate].
        injection H as <- <-. auto.
      * right.
        destruct (get_final_waypoints _ wps next_wp (traffic_waypoint s))
          as [l | e] eqn:E; simpl in H; [| discriminate].
        injection H as <- <-. auto 6.
Qed.

(** ** The straight path *)

Lemma straight_path_length (n : nat) : length (straight_path n) = n.
Proof. unfold straight_path. now rewrite length_map, length_seq. Qed.

Lemma straight_path_nth (n k : nat) :
  (k < n)%nat ->
  nth_error (straight_path n) k = Some (mkWaypoint (on_axis (INR k)) 0).
Proof.
  intros Hk. unfold straight_path. rewrite nth_error_map, nth_error_seq.
  destruct (Nat.ltb_spec k n); [reflexivity | lia].
Qed.

Lemma straight_path_nth_inv (n k : nat) (w : Waypoint) :
  nth_error (straight_path n) k = Some w ->
  (k < n)%nat /\ w = mkWaypoint (on_axis (INR k)) 0.
Proof.
  intros H.
  assert (Hk : (k < n)%nat).
  { rewrite <- (straight_path_length n). apply nth_error_Some.
    rewrite H. discriminate. }
  split; [exact Hk |]. rewrite (straight_path_nth n k Hk) in H. congruence.
Qed.

Lemma straight_path_getitem (n : nat) (i : Z) :
  (0 <= i < Z.of_nat n)%Z ->
  Py.getitem (straight_path n) i
  = Py.Ok (mkWaypoint (on_axis (INR (Z.to_nat i))) 0).
Proof.
  intros Hi. apply getitem_nonneg; [| lia].
  apply straight_path_nth. lia.
Qed.

Lemma distance_on_axis (a b : R) :
  distance (mkPoint a 0 0) (mkPoint b 0 0) = Rabs (a - b).
Proof.
  unfold distance; simpl.
  replace ((a - b) * (a - b) + (0 - 0) * (0 - 0) + (0 - 0) * (0 - 0))
    with (Rsqr (a - b)) by (unfold Rsqr; ring).
  apply sqrt_Rsqr_abs.
Qed.

Lemma euler_yaw_facing_x : euler_yaw facing_x = 0.
Proof.
  unfold euler_yaw, facing_x, Py.atan2; simpl. settle_cmp.
  replace (2 * (1 * 0 + 0 * 0) / (1 - 2 * (0 * 0 + 0 * 0))) with 0 by field.
  apply atan_0.
Qed.

Lemma atan2_origin : Py.atan2 0 0 = 0.
Proof. unfold Py.atan2. settle_cmp. reflexivity. Qed.

(** A vehicle on a waypoint of the straight path is closest to it. *)
Lemma closest_on_axis (n k : nat) :
  (k < n)%nat ->
  get_closest_waypoint (on_axis (INR k)) (straight_path n) = Z.of_nat k.
Proof.
  intros Hk.
  assert (Hne : straight_path n <> []).
  { intros E. apply (f_equal (@length _)) in E.
    rewrite straight_path_length in E. simpl in E. lia. }
  destruct (get_closest_waypoint_first_min (on_axis (INR k)) _ Hne)
    as (j & w & Hj & Hn & Hmin & _).
  rewrite Hj. f_equal.
  apply straight_path_nth_inv in Hn. destruct Hn as [Hjn ->].
  specialize (Hmin k _ (straight_path_nth n k Hk)). simpl in Hmin.
  rewrite !distance_on_axis in Hmin.
  replace (INR k - INR k) with 0 in Hmin by ring. rewrite Rabs_R0 in Hmin.
  assert (H0 : INR k - INR j = 0).
  { pose proof (Rabs_pos (INR k - INR j)).
    destruct (Req_dec (INR k - INR j) 0) as [E | E]; [exact E |].
    apply Rabs_pos_lt in E. lra. }
  apply INR_eq. lra.
Qed.

(** Looking along the axis, that waypoint is also the next one. *)
Lemma next_on_axis (n k : nat) :
  (k < n)%nat ->
  get_next_waypoint (on_axis (INR k)) (straight_path n) = Py.Ok (Z.of_nat k).
Proof.
  intros Hk. unfold get_next_waypoint. rewrite (closest_on_axis n k Hk).
  rewrite straight_path_getitem by lia. rewrite Nat2Z.id. simpl.
  rewrite euler_yaw_facing_x.
  replace (0 - 0) with 0 by ring. replace (INR k - INR k) with 0 by ring.
  rewrite atan2_origin. replace (0 - 0) with 0 by ring. rewrite Rabs_R0.
  pose proof PI_RGT_0. rewrite fgt_false by lra. reflexivity.
Qed.

Lemma min_stopping_dist_5 : min_stopping_dist 5 = 8.125.
Proof. unfold min_stopping_dist, MAX_DECEL, STOP_BUFFER. lra. Qed.

Lemma min_stopping_dist_0 : min_stopping_dist 0 = 5.
Proof. unfold min_stopping_dist, MAX_DECEL, STOP_BUFFER. lra. Qed.

(** ** Ticks on the straight path *)

Lemma INR_to_nat (i : Z) : (0 <= i)%Z -> INR (Z.to_nat i) = IZR i.
Proof. intros Hi. now rewrite INR_IZR_INZ, Z2Nat.id. Qed.

Lemma straight_path_nonempty (n : nat) : (0 < n)%nat -> straight_path n <> [].
Proof.
  intros Hn E. apply (f_equal (@length _)) in E.
  rewrite straight_path_length in E. simpl in E. lia.
Qed.

Section StraightPath.

Variable n : nat.
Variables k stop_wp : Z.
Variable v : R.
Variable b : bool.

Hypothesis vehicle_on_path : (0 <= k < Z.of_nat n)%Z.
Hypothesis stop_on_path : (0 <= stop_wp < Z.of_nat n)%Z.

Let s : Node := scenario n (IZR k) v stop_wp b.

Lemma scenario_located :
  get_next_waypoint (on_axis (IZR k)) (straight_path n) = Py.Ok k.
Proof using vehicle_on_path.
  clear stop_on_path.
  rewrite <- (INR_to_nat k) by lia.
  rewrite next_on_axis by lia. f_equal. lia.
Qed.

Lemma scenario_stop_indexed :
  Py.getitem (straight_path n) stop_wp
  = Py.Ok (mkWaypoint (on_axis (IZR stop_wp)) 0).
Proof using stop_on_path.
  clear vehicle_on_path.
  rewrite straight_path_getitem by lia. now rewrite INR_to_nat by lia.
Qed.

(** The entries of a window over the straight path, for indices that need
    no wrapping. *)
Lemma straight_braking_entry (i : Z) (w : Waypoint) :
  (0 <= i < Z.of_nat n)%Z ->
  braking_entry (straight_path n) v (mkWaypoint (on_axis (IZR stop_wp)) 0) i w ->
  w = mkWaypoint (on_axis (IZR i))
                 (braking_speed v i (Rabs (IZR i - IZR stop_wp))).
Proof using Type.
  clear vehicle_on_path stop_on_path.
  intros Hi (src & Hsrc & ->).
  rewrite straight_path_length, Z.mod_small in Hsrc by lia.
  apply straight_path_nth_inv in Hsrc. destruct Hsrc as [_ ->].
  rewrite INR_to_nat by lia. unfold annotate; simpl.
  now rewrite distance_on_axis.
Qed.

(** The tick brakes when the node is braking already or the stop is at least
    the stopping distance away. *)
Lemma scenario_brakes :
  stop_wp <> (-1)%Z ->
  b = true \/ min_stopping_dist v <= Rabs (IZR k - IZR stop_wp) ->
  exists lane,
    loop s = (scenario n (IZR k) v stop_wp true, Published lane) /\
    Forall2 (braking_entry (straight_path n) v
                           (mkWaypoint (on_axis (IZR stop_wp)) 0))
            (Py.range k stop_wp) lane.
Proof.
  intros Hs Hc.
  destruct (loop_stop s (straight_path n) (on_axis (IZR k)) k
              (mkWaypoint (on_axis (IZR stop_wp)) 0)
              eq_refl eq_refl scenario_located scenario_stop_indexed Hs)
    as (lane & Hl & HF).
  - simpl. rewrite distance_on_axis. exact Hc.
  - exists lane. split; [exact Hl | exact HF].
Qed.

(** The tick keeps cruising when the node is not braking and the stop is
    nearer than the stopping distance. *)
Lemma scenario_cruises :
  stop_wp <> (-1)%Z ->
  b = false ->
  Rabs (IZR k - IZR stop_wp) < min_stopping_dist v ->
  exists lane,
    loop s = (s, Published lane) /\
    Forall2 (cruise_entry (straight_path n))
            (Py.range k (k + LOOKAHEAD_WPS)) lane.
Proof.
  intros Hs Hb Hc.
  destruct (loop_too_short s (straight_path n) (on_axis (IZR k)) k
              (mkWaypoint (on_axis (IZR stop_wp)) 0)
              eq_refl eq_refl scenario_located scenario_stop_indexed Hs)
    as (lane & Hl & HF).
  - subst b. reflexivity.
  - simpl. rewrite distance_on_axis. exact Hc.
  - exists lane. split; [exact Hl | exact HF].
Qed.

End StraightPath.

(** ** Windows and runs *)

Lemma cruise_window_facts (wps : list Waypoint) (a : Z) (lane : list Waypoint) :
  Forall2 (cruise_entry wps) (Py.range a (a + LOOKAHEAD_WPS)) lane ->
  length lane = 200%nat /\ Forall (fun w => linear_x w = 15) lane.
Proof.
  intros HF. split.
  - rewrite <- (Forall2_length HF), range_length. unfold LOOKAHEAD_WPS. lia.
  - apply (Forall2_Forall_r _ _ _ _ HF).
    intros i w (src & _ & ->). reflexivity.
Qed.

Lemma fst_publish (s : Node) (r : Py.Result (list Waypoint)) :
  fst (publish s r) = s.
Proof. destruct r; reflexivity. Qed.

(** A tick changes at most the braking flag: it is cleared when there is no
    stop index and may only be set when there is one. *)
Lemma loop_state (s : Node) :
  fst (loop s) = s \/
  (traffic_waypoint s = (-1)%Z /\ fst (loop s) = set_braking s false) \/
  (traffic_waypoint s <> (-1)%Z /\ fst (loop s) = set_braking s true).
Proof.
  unfold loop.
  destruct (base_waypoints s) as [wps |]; [| now left].
  destruct (current_pose s) as [p |]; [| now left].
  destruct (get_next_waypoint p wps) as [next_wp | e]; [| now left].
  destruct (Py.getitem wps (traffic_waypoint s)) as [stop | e]; [| now left].
  destruct (Z.eqb_spec (traffic_waypoint s) (-1)) as [Ht | Ht].
  - right; left. now rewrite fst_publish.
  - destruct (negb (braking s) && _)%bool; rewrite fst_publish.
    + now left.
    + right; right. now split.
Qed.

Lemma loop_keeps_braking (s : Node) :
  braking s = true ->
  traffic_waypoint s <> (-1)%Z ->
  braking (fst (loop s)) = true /\
  traffic_waypoint (fst (loop s)) = traffic_waypoint s.
Proof.
  intros Hb Ht.
  destruct (loop_state s) as [-> | [[Ht' _] | [_ ->]]];
    [now split | contradiction | now split].
Qed.

Lemma step_keeps_braking (s : Node) (e : Event) :
  braking s = true ->
  traffic_waypoint s <> (-1)%Z ->
  e <> TrafficMsg (-1) ->
  braking (fst (step s e)) = true /\
  traffic_waypoint (fst (step s e)) <> (-1)%Z.
Proof.
  intros Hb Ht He. destruct e; simpl; try (now split).
  - destruct (loop_keeps_braking s Hb Ht) as [H1 H2]. split; congruence.
  - split; [exact Hb | congruence].
Qed.

Lemma run_keeps_braking (es : list Event) :
  forall s,
    braking s = true ->
    traffic_waypoint s <> (-1)%Z ->
    (forall d, In (TrafficMsg d) es -> d <> (-1)%Z) ->
    braking (run s es) = true.
Proof.
  induction es as [| e rest IH]; intros s Hb Ht Hes; simpl.
  - exact Hb.
  - assert (He : e <> TrafficMsg (-1)).
    { intros ->. now apply (Hes (-1)%Z (or_introl eq_refl)). }
    destruct (step_keeps_braking s e Hb Ht He) as [Hb' Ht'].
    destruct (step s e) as [s1 o]; simpl in Hb', Ht'.
    destruct o; try exact Hb';
      (apply IH; [exact Hb' | exact Ht' |
                  intros d Hd; apply Hes; now right]).
Qed.

(** The braking flag is only ever set by a tick that passed the readiness
    gate, and no attribute is ever deleted. *)
Lemma step_braking_ready (s : Node) (e : Event) :
  (braking s = true -> ready s) ->
  braking (fst (step s e)) = true -> ready (fst (step s e)).
Proof.
  intros Hinv. destruct e; simpl;
    try (intros Hb; destruct (Hinv Hb) as [[wps Hw] [p Hp]];
         split; eexists; simpl; eauto; fail).
  unfold loop.
  destruct (base_waypoints s) as [wps |] eqn:Hw; [| exact Hinv].
  destruct (current_pose s) as [p |] eqn:Hp; [| exact Hinv].
  assert (Hr : forall b, ready (set_braking s b))
    by (intros b'; split; eexists; simpl; eauto).
  assert (Hs : ready s) by (split; eexists; eauto).
  destruct (get_next_waypoint p wps) as [next_wp | e]; [| now intros _].
  destruct (Py.getitem wps (traffic_waypoint s)) as [stop | e];
    [| now intros _].
  repeat match goal with
         | |- context [if ?c then _ else _] => destruct c
         end; rewrite fst_publish; intros _; auto.
Qed.

Lemma run_braking_ready (es : list Event) :
  forall s,
    (braking s = true -> ready s) ->
    braking (run s es) = true -> ready (run s es).
Proof.
  induction es as [| e rest IH]; intros s Hinv; simpl.
  - exact Hinv.
  - pose proof (step_braking_ready s e Hinv) as Hstep.
    destruct (step s e) as [s1 o]; simpl in Hstep.
    destruct o; try exact Hstep; now apply IH.
Qed.

Lemma reachable_braking_ready (es : list Event) :
  braking (run init es) = true -> ready (run init es).
Proof. apply run_braking_ready. discriminate. Qed.

Lemma Forall2_nth_error_r {A B : Type} (P : A -> B -> Prop)
      (l : list A) (l' : list B) :
  Forall2 P l l' ->
  forall k b, nth_error l' k = Some b ->
              exists a, nth_error l k = Some a /\ P a b.
Proof.
  induction 1 as [| a0 b0 l l' H0 HF IH]; intros [| k] b Hk; simpl in *;
    try discriminate.
  - injection Hk as <-. now exists a0.
  - now apply IH.
Qed.

Lemma range_nth_error_inv (lo hi : Z) (k : nat) (i : Z) :
  nth_error (Py.range lo hi) k = Some i ->
  i = (lo + Z.of_nat k)%Z /\ (lo <= i < hi)%Z.
Proof.
  intros H.
  assert (Hk : (k < Z.to_nat (hi - lo))%nat).
  { rewrite <- range_length. apply nth_error_Some. rewrite H. discriminate. }
  rewrite range_nth_error in H by exact Hk. injection H as <-. lia.
Qed.

(** The entry of a window at a given offset is the entry of loop index
    [start + offset]. *)
Lemma window_nth_error {P : Z -> Waypoint -> Prop} (lo hi : Z)
      (lane : list Waypoint) (k : nat) (w : Waypoint) :
  Forall2 P (Py.range lo hi) lane ->
  nth_error lane k = Some w ->
  P (lo + Z.of_nat k)%Z w /\ (lo + Z.of_nat k < hi)%Z.
Proof.
  intros HF Hk.
  destruct (Forall2_nth_error_r _ _ _ HF k w Hk) as (i & Hi & HP).
  apply range_nth_error_inv in Hi. destruct Hi as [-> Hr].
  split; [exact HP | lia].
Qed.

Lemma window_length {P : Z -> Waypoint -> Prop} (lo hi : Z)
      (lane : list Waypoint) :
  Forall2 P (Py.range lo hi) lane ->
  Z.of_nat (length lane) = Z.max 0 (hi - lo).
Proof.
  intros HF. rewrite <- (Forall2_length HF), range_length. lia.
Qed.

Lemma braking_entry_rule (wps : list Waypoint) (v : R) (stop : Waypoint)
      (i : Z) (w : Waypoint) :
  braking_entry wps v stop i w ->
  linear_x w
  = braking_speed v i (distance (position (pose w)) (position (pose stop))).
Proof.
  intros (src & _ & ->). now rewrite annotate_position, annotate_speed.
Qed.

(** Evaluates [braking_speed] where [lra] can order the operands. *)
Ltac eval_speed :=
  unfold braking_speed, STOP_BUFFER; settle_cmp; cbn [andb]; cbv iota.

(** Scenario B with the node braking: six waypoints, and the entry at offset
    0 is the waypoint at x = 194 with speed 3. *)
Lemma scenario_B_braking_window :
  exists lane,
    loop (scenario_B true) = (scenario_B true, Published lane) /\
    length lane = 6%nat /\
    nth_error lane 0 = Some (mkWaypoint (on_axis 194) 3).
Proof.
  destruct (scenario_brakes 300 194 200 5 true) as (lane & Hl & HF);
    [simpl; lia | simpl; lia | discriminate | now left |].
  exists lane. split; [exact Hl |].
  assert (Hlen : length lane = 6%nat).
  { apply window_length in HF. lia. }
  split; [exact Hlen |].
  destruct lane as [| w rest]; [discriminate |]. simpl. f_equal.
  destruct (window_nth_error _ _ _ 0 w HF eq_refl) as [He _].
  apply straight_braking_entry in He; [| simpl; lia].
  rewrite He. simpl Z.add. f_equal.
  rewrite Rabs_left by lra. eval_speed. reflexivity.
Qed.

Lemma Forall2_map_eq {A B : Type} (f : A -> B) (l : list A) (l' : list B) :
  Forall2 (fun a b => b = f a) l l' -> l' = map f l.
Proof. induction 1; simpl; congruence. Qed.

Lemma Forall2_impl_in {A B : Type} (P Q : A -> B -> Prop)
      (l : list A) (l' : list B) :
  (forall a b, In a l -> P a b -> Q a b) ->
  Forall2 P l l' -> Forall2 Q l l'.
Proof.
  intros HPQ HF. induction HF as [| a b l l' Hab HF IH]; constructor.
  - apply HPQ; [now left | exact Hab].
  - apply IH. intros a' b' Hin. apply HPQ. now right.
Qed.

(** Scenario A: the tick brakes, and the window is the first 200 waypoints
    of the path with the speeds of [scenario_A_profile]. *)
Lemma scenario_A_window :
  exists lane,
    loop scenario_A = (scenario 300 0 5 200 true, Published lane) /\
    lane = map (fun k => mkWaypoint (on_axis (INR k)) (scenario_A_profile k))
               (seq 0 200).
Proof.
  destruct (scenario_brakes 300 0 200 5 false) as (lane & Hl & HF);
    [simpl; lia | simpl; lia | discriminate | |].
  { right. rewrite min_stopping_dist_5, Rabs_left by lra. lra. }
  exists lane. split; [exact Hl |].
  apply Forall2_impl_in
    with (Q := fun i w =>
                 w = mkWaypoint (on_axis (IZR i))
                       (braking_speed 5 i (Rabs (IZR i - 200)))) in HF.
  2:{ intros i w Hin He. apply in_range in Hin.
      apply straight_braking_entry in He; [exact He | simpl; lia]. }
  apply Forall2_map_eq in HF. rewrite HF. unfold Py.range.
  rewrite map_map. change (Z.to_nat (200 - 0)) with 200%nat.
  apply map_ext_in. intros k Hk. apply in_seq in Hk.
  rewrite Z.add_0_l, <- INR_IZR_INZ. f_equal.
  assert (Hlo : 0 <= INR k) by apply pos_INR.
  assert (Hhi : INR k <= 199).
  { replace 199 with (INR 199) by (rewrite INR_IZR_INZ; reflexivity).
    apply le_INR. lia. }
  rewrite Rabs_left by lra.
  unfold braking_speed. rewrite <- INR_IZR_INZ.
  destruct k as [| [| k]].
  - simpl INR. eval_speed. unfold scenario_A_profile. simpl. lra.
  - simpl INR. eval_speed. unfold scenario_A_profile. simpl. lra.
  - unfold scenario_A_profile.
    change (S (S k) =? 0)%nat with false. change (S (S k) =? 1)%nat with false.
    cbv iota.
    assert (H2 : 2 <= INR (S (S k))).
    { replace 2 with (INR 2) by (rewrite INR_IZR_INZ; reflexivity).
      apply le_INR. lia. }
    destruct (Nat.ltb_spec (S (S k)) 195) as [H195 | H195].
    + assert (Hlt : INR (S (S k)) <= 194).
      { replace 194 with (INR 194) by (rewrite INR_IZR_INZ; reflexivity).
        apply le_INR. lia. }
      eval_speed. reflexivity.
    + assert (Hge : 195 <= INR (S (S k))).
      { replace 195 with (INR 195) by (rewrite INR_IZR_INZ; reflexivity).
        apply le_INR. lia. }
      eval_speed. reflexivity.
Qed.

(** The speeds of a published window: all 15 when the tick leaves the node
    cruising, all given by [braking_speed] when it leaves it braking. *)
Lemma published_speeds (s s' : Node) (lane : list Waypoint) :
  loop s = (s', Published lane) ->
  Forall (fun w =>
            (braking s' = false /\ linear_x w = 15) \/
            (braking s' = true /\
             exists wps i stop,
               base_waypoints s = Some wps /\
               Py.getitem wps (traffic_waypoint s) = Py.Ok stop /\
               linear_x w
               = braking_speed (current_velocity s) i
                   (distance (position (pose w)) (position (pose stop)))))
         lane.
Proof.
  intros H.
  destruct (loop_published_inv s s' lane H)
    as (wps & p & next_wp & stop & Hw & Hp & Hn & Hs & Hcase).
  destruct Hcase as [(Ht & -> & Hl) | [(Ht & Hb & -> & Hd & Hl)
                                      | (Ht & -> & Hc & Hl)]];
    apply get_final_waypoints_speeds in Hl;
    refine (Forall_impl _ _ Hl); intros w [Hc' | [Hb' (i & stop' & Hs' & Hx)]];
    try (now left); try (simpl in Hb'; congruence).
  right. split; [reflexivity |]. exists wps, i, stop'. auto.
Qed.

(** Behind the only waypoint of a path of one, the locator returns 1, the
    length of the path. *)
Lemma next_past_the_end :
  get_next_waypoint (on_axis 1) (straight_path 1) = Py.Ok 1%Z.
Proof.
  destruct (get_next_waypoint_rule (on_axis 1) (straight_path 1))
    as (w & Hw & Hr & Hn); [discriminate |].
  rewrite straight_path_length in Hr.
  assert (Hc : get_closest_waypoint (on_axis 1) (straight_path 1) = 0%Z) by lia.
  rewrite Hc in Hw, Hn. simpl in Hw. injection Hw as <-.
  rewrite Hn. simpl. rewrite euler_yaw_facing_x.
  assert (Hb : Py.atan2 (0 - 0) (0 - 1) = PI).
  { unfold Py.atan2. settle_cmp.
    replace ((0 - 0) / (0 - 1)) with 0 by field. rewrite atan_0. ring. }
  rewrite Hb. pose proof PI_RGT_0.
  rewrite Rabs_left by lra. rewrite fgt_true by lra. reflexivity.
Qed.

(** * The claims *)

(** C8 (readiness gate). While the path or the pose has not been received,
    a tick publishes nothing, raises nothing and leaves every attribute of
    the node, the braking flag, the velocity and the stop index included, as
    it was. *)
Theorem readiness_gate (s : Node) :
  base_waypoints s = None \/ current_pose s = None ->
  loop s = (s, Skipped).
Proof. exact (loop_not_ready s). Qed.

Lemma readiness_gate_witness :
  (base_waypoints init = None \/ current_pose init = None) /\
  loop init = (init, Skipped).
Proof.
  split.
  - left. reflexivity.
  - apply (readiness_gate init). left. reflexivity.
Defined.

(** C1 (per-tick braking decision), as the code decides it. On a tick with a
    stop index other than [-1] and the node cruising, the stopping distance
    is [v^2 / (2 * 4) + 5]; when the distance from the vehicle to the stop
    waypoint is below it the node keeps cruising and publishes a cruise
    window (200 waypoints at speed 15), and when the distance is at least the
    stopping distance the node starts braking and publishes the braking
    window from the next waypoint to the stop index. *)
Theorem braking_decision
        (s : Node) (wps : list Waypoint) (p : Pose) (stop : Waypoint) :
  base_waypoints s = Some wps ->
  current_pose s = Some p ->
  traffic_waypoint s <> (-1)%Z ->
  Py.getitem wps (traffic_waypoint s) = Py.Ok stop ->
  braking s = false ->
  let tl_dist := distance (position p) (position (pose stop)) in
  let v := current_velocity s in
  min_stopping_dist v = v * v / (2 * 4) + 5 /\
  (tl_dist < min_stopping_dist v ->
   exists lane,
     loop s = (s, Published lane) /\
     length lane = 200%nat /\
     Forall (fun w => linear_x w = 15) lane) /\
  (tl_dist >= min_stopping_dist v ->
   exists lane next_wp,
     get_next_waypoint p wps = Py.Ok next_wp /\
     loop s = (set_braking s true, Published lane) /\
     braking (fst (loop s)) = true /\
     Forall2 (braking_entry wps v stop)
             (Py.range next_wp (traffic_waypoint s)) lane).
Proof.
  intros Hw Hp Ht Hs Hb tl_dist v.
  destruct (get_next_waypoint_Ok p wps (getitem_nonempty _ _ _ Hs))
    as (next_wp & Hn & _).
  split; [| split].
  - unfold min_stopping_dist, MAX_DECEL, STOP_BUFFER. simpl. field.
  - intros Hd.
    destruct (loop_too_short s wps p next_wp stop Hw Hp Hn Hs Ht Hb Hd)
      as (lane & Hl & HF).
    exists lane. split; [exact Hl |]. exact (cruise_window_facts _ _ _ HF).
  - intros Hd.
    destruct (loop_stop s wps p next_wp stop Hw Hp Hn Hs Ht)
      as (lane & Hl & HF).
    + right. apply Rge_le. exact Hd.
    + exists lane, next_wp. rewrite Hl. repeat split; assumption.
Qed.

Lemma braking_decision_witness :
  exists lane next_wp,
    get_next_waypoint (on_axis 0) (straight_path 11) = Py.Ok next_wp /\
    loop far_stop = (set_braking far_stop true, Published lane) /\
    braking (fst (loop far_stop)) = true /\
    Forall2 (braking_entry (straight_path 11) 0 (mkWaypoint (on_axis 10) 0))
            (Py.range next_wp 10) lane.
Proof.
  apply (braking_decision far_stop (straight_path 11) (on_axis 0)
           (mkWaypoint (on_axis 10) 0)).
  - reflexivity.
  - reflexivity.
  - discriminate.
  - apply (scenario_stop_indexed 11 10). simpl; lia.
  - reflexivity.
  - simpl. rewrite distance_on_axis, min_stopping_dist_0.
    rewrite Rabs_left by lra. lra.
Defined.

(** C1 as the specification words it fails on the code: with the vehicle at
    a standstill 10 m before the stop the distance is at least the stopping
    distance (5 m) and the node starts braking, where the specified machine
    keeps cruising; 2 m before the stop the distance is below it and the node
    keeps cruising, where the specified machine brakes. *)
Lemma braking_decision_counterexample :
  (stop_signal_of far_stop = Some 10%Z /\
   state_of far_stop = CRUISING /\
   distance (mkPoint 0 0 0) (mkPoint 10 0 0) >= spec_min_stopping_distance 0 /\
   spec_transition CRUISING (Some 10%Z)
                   (distance (mkPoint 0 0 0) (mkPoint 10 0 0)) 0 = CRUISING /\
   state_of (fst (loop far_stop)) = BRAKING)
  /\
  (stop_signal_of near_stop = Some 2%Z /\
   state_of near_stop = CRUISING /\
   distance (mkPoint 0 0 0) (mkPoint 2 0 0) < spec_min_stopping_distance 0 /\
   spec_transition CRUISING (Some 2%Z)
                   (distance (mkPoint 0 0 0) (mkPoint 2 0 0)) 0 = BRAKING /\
   state_of (fst (loop near_stop)) = CRUISING).
Proof.
  assert (H10 : distance (mkPoint 0 0 0) (mkPoint 10 0 0) = 10)
    by (rewrite distance_on_axis, Rabs_left by lra; lra).
  assert (H2 : distance (mkPoint 0 0 0) (mkPoint 2 0 0) = 2)
    by (rewrite distance_on_axis, Rabs_left by lra; lra).
  assert (Hm : spec_min_stopping_distance 0 = 5)
    by (unfold spec_min_stopping_distance; lra).
  split; repeat split; try reflexivity.
  - rewrite H10, Hm. lra.
  - unfold spec_transition. rewrite H10, Hm. unfold Py.fge.
    destruct (Rge_dec 10 5); [reflexivity | lra].
  - destruct (scenario_brakes 11 0 10 0 false) as (lane & Hl & _);
      [simpl; lia | simpl; lia | discriminate | |].
    + right. rewrite min_stopping_dist_0, Rabs_left by lra. lra.
    + unfold far_stop. rewrite Hl. reflexivity.
  - rewrite H2, Hm. lra.
  - unfold spec_transition. rewrite H2, Hm. unfold Py.fge.
    destruct (Rge_dec 2 5); [lra | reflexivity].
  - destruct (scenario_cruises 11 0 2 0 false) as (lane & Hl & _);
      [simpl; lia | simpl; lia | discriminate | reflexivity | |].
    + rewrite min_stopping_dist_0, Rabs_left by lra. lra.
    + unfold near_stop. rewrite Hl. reflexivity.
Qed.

(** The run [run_to_braking] leaves the node braking for stop index 10. *)
Lemma run_to_braking_state :
  run init run_to_braking = scenario 11 0 0 10 true.
Proof.
  destruct (scenario_brakes 11 0 10 0 false) as (lane & Hl & _);
    [simpl; lia | simpl; lia | discriminate | |].
  - right. rewrite min_stopping_dist_0, Rabs_left by lra. lra.
  - unfold run_to_braking.
    change (run init [PathMsg (straight_path 11); PoseMsg (on_axis 0);
                      TrafficMsg 10; Tick])
      with (match loop (scenario 11 0 0 10 false) with
            | (s1, Raised _) => s1
            | (s1, _) => run s1 []
            end).
    rewrite Hl. reflexivity.
Qed.

(** C2 (sticky braking). Once the node is braking, it is still braking after
    any further run of messages and ticks in which the stop index is never
    [-1], whatever poses, velocities, paths and stop indices arrive in
    between; and when a braking node that the initial state can reach has
    stop index [-1] and a non-empty path, its tick clears the flag and
    publishes a cruise window. *)
Theorem sticky_braking :
  (forall (s : Node) (es : list Event),
      braking s = true ->
      traffic_waypoint s <> (-1)%Z ->
      (forall d, In (TrafficMsg d) es -> d <> (-1)%Z) ->
      braking (run s es) = true)
  /\
  (forall (es : list Event) (wps : list Waypoint),
      braking (run init es) = true ->
      traffic_waypoint (run init es) = (-1)%Z ->
      base_waypoints (run init es) = Some wps ->
      wps <> [] ->
      exists lane,
        loop (run init es) = (set_braking (run init es) false, Published lane) /\
        braking (fst (loop (run init es))) = false /\
        length lane = 200%nat /\
        Forall (fun w => linear_x w = 15) lane).
Proof.
  split.
  - intros s es. apply run_keeps_braking.
  - intros es wps Hb Ht Hw Hne.
    destruct (reachable_braking_ready es Hb) as [_ [p Hp]].
    destruct (loop_ready _ wps p Hw Hp Hne) as (next_wp & stop & Hn & Hs).
    { rewrite Ht. destruct wps; [contradiction | simpl length; lia]. }
    destruct (loop_no_signal _ wps p next_wp stop Hw Hp Hn Hs Ht)
      as (lane & Hl & HF).
    exists lane. rewrite Hl. split; [reflexivity |]. split; [reflexivity |].
    exact (cruise_window_facts _ _ _ HF).
Qed.

Lemma sticky_braking_witness :
  braking (run (run init run_to_braking)
               [VelocityMsg 20; PoseMsg (on_axis 7); Tick; TrafficMsg 3;
                Tick; PathMsg []; Tick])
  = true
  /\
  exists lane,
    loop (run init (run_to_braking ++ [TrafficMsg (-1)]))
    = (set_braking (run init (run_to_braking ++ [TrafficMsg (-1)])) false,
       Published lane) /\
    braking (fst (loop (run init (run_to_braking ++ [TrafficMsg (-1)]))))
    = false /\
    length lane = 200%nat /\
    Forall (fun w => linear_x w = 15) lane.
Proof.
  assert (Hrun : run init (run_to_braking ++ [TrafficMsg (-1)])
                 = scenario 11 0 0 (-1) true).
  { destruct (scenario_brakes 11 0 10 0 false) as (lane & Hl & _);
      [simpl; lia | simpl; lia | discriminate | |].
    - right. rewrite min_stopping_dist_0, Rabs_left by lra. lra.
    - change (run init (run_to_braking ++ [TrafficMsg (-1)]))
        with (match loop (scenario 11 0 0 10 false) with
              | (s1, Raised _) => s1
              | (s1, _) => run s1 [TrafficMsg (-1)]
              end).
      rewrite Hl. reflexivity. }
  split.
  - apply (proj1 sticky_braking).
    + rewrite run_to_braking_state. reflexivity.
    + rewrite run_to_braking_state. discriminate.
    + intros d [H | [H | [H | [H | [H | [H | [H | []]]]]]]];
        try discriminate. injection H as <-. discriminate.
  - apply (proj2 sticky_braking) with (wps := straight_path 11).
    + rewrite Hrun. reflexivity.
    + rewrite Hrun. reflexivity.
    + rewrite Hrun. reflexivity.
    + apply straight_path_nonempty. lia.
Defined.

(** C3 (braking speed rule), as the code computes it. On a tick that brakes,
    the window runs over the loop indices [i] from [next_wp] up to the stop
    index, and the waypoint at offset [k] has loop index [i = next_wp + k];
    with [dist] its distance to the stop waypoint its speed is 3 when
    [dist > 5] and the velocity is below 3, 0 when [dist <= 5], and otherwise
    [v - i * 0.5] when [v - i > 3] and 3 when not. The decay branch uses the
    loop index [i], not the offset. In Scenario B with the node braking the
    waypoint at offset 0 has loop index 194 and speed 3. *)
Theorem braking_speed_rule :
  (forall (s : Node) (wps : list Waypoint) (p : Pose) (next_wp : Z)
          (stop : Waypoint),
      base_waypoints s = Some wps ->
      current_pose s = Some p ->
      get_next_waypoint p wps = Py.Ok next_wp ->
      traffic_waypoint s <> (-1)%Z ->
      Py.getitem wps (traffic_waypoint s) = Py.Ok stop ->
      braking s = true \/
      min_stopping_dist (current_velocity s)
      <= distance (position p) (position (pose stop)) ->
      exists lane,
        loop s = (set_braking s true, Published lane) /\
        Z.of_nat (length lane) = Z.max 0 (traffic_waypoint s - next_wp) /\
        forall (k : nat) (w : Waypoint),
          nth_error lane k = Some w ->
          let i := (next_wp + Z.of_nat k)%Z in
          let dist := distance (position (pose w)) (position (pose stop)) in
          let v := current_velocity s in
          (dist > 5 /\ v < 3 /\ linear_x w = 3) \/
          (dist <= 5 /\ linear_x w = 0) \/
          (dist > 5 /\ 3 <= v /\ v - IZR i > 3 /\
           linear_x w = v - IZR i * 0.5) \/
          (dist > 5 /\ 3 <= v /\ v - IZR i <= 3 /\ linear_x w = 3))
  /\
  (exists lane w,
      loop (scenario_B true) = (scenario_B true, Published lane) /\
      nth_error lane 0 = Some w /\
      position (pose w) = mkPoint 194 0 0 /\
      distance (position (pose w)) (mkPoint 200 0 0) = 6 /\
      linear_x w = 3).
Proof.
  split.
  - intros s wps p next_wp stop Hw Hp Hn Ht Hs Hc.
    destruct (loop_stop s wps p next_wp stop Hw Hp Hn Hs Ht Hc)
      as (lane & Hl & HF).
    exists lane. split; [exact Hl |].
    split; [exact (window_length _ _ _ HF) |].
    intros k w Hk i dist v.
    destruct (window_nth_error _ _ _ k w HF Hk) as [He _].
    apply braking_entry_rule in He. fold i dist v in He. rewrite He.
    exact (braking_speed_cases v i dist).
  - destruct scenario_B_braking_window as (lane & Hl & _ & H0).
    exists lane, (mkWaypoint (on_axis 194) 3).
    repeat split; try assumption.
    simpl. rewrite distance_on_axis, Rabs_left by lra. lra.
Qed.

Lemma braking_speed_rule_witness :
  exists lane,
    loop (scenario 11 0 0 10 true)
    = (set_braking (scenario 11 0 0 10 true) true, Published lane) /\
    Z.of_nat (length lane) = Z.max 0 (10 - 0) /\
    forall (k : nat) (w : Waypoint),
      nth_error lane k = Some w ->
      let i := (0 + Z.of_nat k)%Z in
      let dist := distance (position (pose w)) (mkPoint 10 0 0) in
      (dist > 5 /\ 0 < 3 /\ linear_x w = 3) \/
      (dist <= 5 /\ linear_x w = 0) \/
      (dist > 5 /\ 3 <= 0 /\ 0 - IZR i > 3 /\ linear_x w = 0 - IZR i * 0.5) \/
      (dist > 5 /\ 3 <= 0 /\ 0 - IZR i <= 3 /\ linear_x w = 3).
Proof.
  apply (proj1 braking_speed_rule (scenario 11 0 0 10 true) (straight_path 11)
           (on_axis 0) 0%Z (mkWaypoint (on_axis 10) 0)).
  - reflexivity.
  - reflexivity.
  - apply (scenario_located 11 0). simpl; lia.
  - discriminate.
  - apply (scenario_stop_indexed 11 10). simpl; lia.
  - left. reflexivity.
Defined.

(** C3 as the specification words it fails on the code: in Scenario B with
    the node braking, the waypoint at offset 0 is 6 m before the stop, the
    rule on offsets gives it speed 5, and the code gives it speed 3. (With
    the node still cruising the tick of Scenario B keeps cruising, and the
    waypoint at offset 0 gets speed 15.) *)
Lemma braking_speed_rule_counterexample :
  (exists lane w,
      loop (scenario_B true) = (scenario_B true, Published lane) /\
      nth_error lane 0 = Some w /\
      spec_braking_speed 5 0 (distance (position (pose w)) (mkPoint 200 0 0))
      = 5 /\
      linear_x w = 3 /\
      linear_x w <> 5)
  /\
  (exists lane w,
      loop (scenario_B false) = (scenario_B false, Published lane) /\
      nth_error lane 0 = Some w /\
      linear_x w = 15 /\
      linear_x w <> 5).
Proof.
  split.
  - destruct scenario_B_braking_window as (lane & Hl & _ & H0).
    exists lane, (mkWaypoint (on_axis 194) 3).
    split; [exact Hl |]. split; [exact H0 |]. simpl.
    rewrite distance_on_axis, Rabs_left by lra.
    repeat split; try lra.
    unfold spec_braking_speed, STOP_BUFFER, creep_threshold, creep_speed.
    settle_cmp. cbn [andb]. cbv iota. lra.
  - destruct (scenario_cruises 300 194 200 5 false) as (lane & Hl & HF);
      [simpl; lia | simpl; lia | discriminate | reflexivity | |].
    { rewrite min_stopping_dist_5, Rabs_left by lra. lra. }
    apply cruise_window_facts in HF. destruct HF as [Hlen HF].
    destruct lane as [| w rest]; [discriminate |].
    exists (w :: rest), w. split; [exact Hl |]. split; [reflexivity |].
    inversion HF as [| ? ? Hw _]. rewrite Hw. split; lra.
Qed.

(** C4 (Scenario A), as the code runs it. On the path of 300 waypoints with
    the vehicle at x = 0, velocity 5 and stop index 200, the stopping
    distance is 8.125 and the distance to the stop is 200, which is at least
    8.125, so the node starts braking; the published window has exactly 200
    waypoints, the waypoints 0..199 of the path, with speed 5 at offset 0,
    4.5 at offset 1, 3 at offsets 2..194 and 0 at offsets 195..199. *)
Theorem scenario_A_brakes :
  min_stopping_dist 5 = 8.125 /\
  distance (mkPoint 0 0 0) (mkPoint 200 0 0) = 200 /\
  200 >= 8.125 /\
  exists lane,
    loop scenario_A = (set_braking scenario_A true, Published lane) /\
    state_of (fst (loop scenario_A)) = BRAKING /\
    length lane = 200%nat /\
    lane = map (fun k => mkWaypoint (on_axis (INR k)) (scenario_A_profile k))
               (seq 0 200).
Proof.
  split; [exact min_stopping_dist_5 |].
  split; [rewrite distance_on_axis, Rabs_left by lra; lra |].
  split; [lra |].
  destruct scenario_A_window as (lane & Hl & Hlane).
  exists lane. unfold scenario_A in *. rewrite Hl.
  repeat split; try assumption.
  rewrite Hlane, length_map, length_seq. reflexivity.
Qed.

(** C4 as the specification words it fails on the code: in Scenario A the
    node does not keep cruising, and the first waypoint of the window has
    speed 5, not 15. *)
Lemma scenario_A_counterexample :
  state_of (fst (loop scenario_A)) = BRAKING /\
  (exists lane w,
      snd (loop scenario_A) = Published lane /\
      nth_error lane 0 = Some w /\
      linear_x w = 5 /\
      linear_x w <> 15) /\
  ~ scenario_A_as_specified.
Proof.
  destruct scenario_A_window as (lane & Hl & Hlane).
  unfold scenario_A_as_specified, scenario_A in *. rewrite Hl.
  split; [reflexivity |]. split.
  - exists lane, (mkWaypoint (on_axis 0) 5). simpl.
    split; [reflexivity |]. split; [rewrite Hlane; reflexivity |].
    split; lra.
  - intros (lane' & _ & Hs & _). simpl in Hs. discriminate.
Qed.

(** The window of [get_final_waypoints] for a request made while the node is
    not braking, or for an empty window, or with [end_wp] an index of the
    path. *)
Lemma get_final_waypoints_shape
        (s : Node) (wps : list Waypoint) (start_wp end_wp : Z) :
  wps <> [] ->
  (start_wp <= end_wp)%Z ->
  braking s = false \/ start_wp = end_wp \/
  (- Z.of_nat (length wps) <= end_wp < Z.of_nat (length wps))%Z ->
  exists lane,
    get_final_waypoints s wps start_wp end_wp = Py.Ok lane /\
    Z.of_nat (length lane) = (end_wp - start_wp)%Z /\
    forall k : Z,
      (0 <= k < end_wp - start_wp)%Z ->
      exists w src,
        nth_error lane (Z.to_nat k) = Some w /\
        nth_error wps (Z.to_nat ((start_wp + k) mod Z.of_nat (length wps)))
        = Some src /\
        position (pose w) = position (pose src) /\
        orientation (pose w) = orientation (pose src).
Proof.
  intros Hne Hle Hc.
  assert (Hshape :
           exists lane,
             get_final_waypoints s wps start_wp end_wp = Py.Ok lane /\
             Forall2 (fun i w =>
                        exists src speed,
                          nth_error wps
                            (Z.to_nat (i mod Z.of_nat (length wps))) = Some src
                          /\ w = annotate src speed)
                     (Py.range start_wp end_wp) lane).
  { destruct (braking s) eqn:Hb.
    - destruct Hc as [Hc | [Hc | Hc]]; [discriminate | |].
      + subst end_wp. exists []. unfold get_final_waypoints.
        rewrite range_empty by lia. split; [reflexivity | constructor].
      + destruct (getitem_valid wps end_wp Hc) as (stop & Hs).
        destruct (get_final_waypoints_braking s wps Hne start_wp end_wp stop
                    Hb Hs) as (lane & Hl & HF).
        exists lane. split; [exact Hl |].
        eapply Forall2_impl_in; [| exact HF].
        intros i w _ (src & Hn & He).
        eexists src, _. split; [exact Hn | exact He].
    - destruct (get_final_waypoints_cruise s wps Hne start_wp end_wp Hb)
        as (lane & Hl & HF).
      exists lane. split; [exact Hl |].
      eapply Forall2_impl_in; [| exact HF].
      intros i w _ (src & Hn & He).
      eexists src, _. split; [exact Hn | exact He]. }
  destruct Hshape as (lane & Hl & HF). exists lane.
  split; [exact Hl |].
  assert (Hlen : Z.of_nat (length lane) = (end_wp - start_wp)%Z).
  { rewrite <- (Forall2_length HF), range_length. lia. }
  split; [exact Hlen |].
  intros k Hk.
  destruct (Forall2_nth_error_l _ _ _ HF (Z.to_nat k) (start_wp + k)%Z)
    as (w & Hw & src & speed & Hsrc & ->).
  { rewrite range_nth_error by lia. f_equal. lia. }
  exists (annotate src speed), src.
  repeat split; try assumption. apply annotate_position.
Qed.

(** The outcome of a tick that reaches a call site is what [publish] makes of
    the result of that call. *)
Lemma loop_call_sound (s s1 : Node) (wps : list Waypoint) (a b : Z) :
  loop_call s = Some (s1, wps, a, b) ->
  loop s = publish s1 (get_final_waypoints s1 wps a b).
Proof.
  unfold loop_call, loop.
  destruct (base_waypoints s) as [wpts |]; [| discriminate].
  destruct (current_pose s) as [p |]; [| discriminate].
  destruct (get_next_waypoint p wpts) as [next_wp | e]; [| discriminate].
  destruct (Py.getitem wpts (traffic_waypoint s)) as [stop | e];
    [| discriminate].
  repeat match goal with
         | |- context [if ?c then _ else _] => destruct c
         end; intros H; injection H as <- <- <- <-; reflexivity.
Qed.

(** At the call site a tick reaches, the path is not empty, and [end_wp] is
    an index of the path whenever the node is braking. *)
Lemma loop_call_request (s s1 : Node) (wps : list Waypoint) (a b : Z) :
  loop_call s = Some (s1, wps, a, b) ->
  wps <> [] /\
  (braking s1 = false \/
   (- Z.of_nat (length wps) <= b < Z.of_nat (length wps))%Z).
Proof.
  unfold loop_call.
  destruct (base_waypoints s) as [wpts |]; [| discriminate].
  destruct (current_pose s) as [p |]; [| discriminate].
  destruct (get_next_waypoint p wpts) as [next_wp | e]; [| discriminate].
  destruct (Py.getitem wpts (traffic_waypoint s)) as [stop | e] eqn:Hs;
    [| discriminate].
  pose proof (getitem_nonempty _ _ _ Hs) as Hne.
  apply getitem_Ok_inv in Hs. destruct Hs as [Hr _].
  destruct (traffic_waypoint s =? -1)%Z.
  - intros H; injection H as <- <- <- <-. split; [exact Hne | now left].
  - destruct (braking s) eqn:Hb; simpl.
    + intros H; injection H as <- <- <- <-. split; [exact Hne | now right].
    + destruct (Py.flt _ _); intros H; injection H as <- <- <- <-;
        (split; [exact Hne |]); [now left | now right].
Qed.

(** A tick that reaches no call site publishes nothing. *)
Lemma loop_call_none (s : Node) :
  loop_call s = None -> forall lane, snd (loop s) <> Published lane.
Proof.
  unfold loop_call, loop.
  destruct (base_waypoints s) as [wpts |]; [| discriminate].
  destruct (current_pose s) as [p |]; [| discriminate].
  destruct (get_next_waypoint p wpts) as [next_wp | e]; [| discriminate].
  destruct (Py.getitem wpts (traffic_waypoint s)) as [stop | e];
    [| discriminate].
  repeat match goal with
         | |- context [if ?c then _ else _] => destruct c
         end; discriminate.
Qed.

(** C5 (window shape). For every non-empty path of length [L] and every
    window request [[start_wp, end_wp)] with [start_wp <= end_wp],
    [get_final_waypoints] returns exactly [end_wp - start_wp] waypoints in
    ascending order of the loop index, the one at offset [k] with the
    position and the orientation of [path[(start_wp + k) mod L]]. This holds
    for every request made while the node is not braking, whatever the
    bounds, and for every request a tick makes, braking or not: [loop], the
    only caller, passes a non-empty path, starts the window at the located
    waypoint and, when braking, ends it at the stop index it has just read
    the path at; the window it publishes is the one returned. *)
Theorem window_shape :
  (forall (s : Node) (wps : list Waypoint) (start_wp end_wp : Z),
      braking s = false ->
      wps <> [] ->
      (start_wp <= end_wp)%Z ->
      exists lane,
        get_final_waypoints s wps start_wp end_wp = Py.Ok lane /\
        window_over wps start_wp end_wp lane)
  /\
  (forall (s s1 : Node) (wps : list Waypoint) (start_wp end_wp : Z),
      loop_call s = Some (s1, wps, start_wp, end_wp) ->
      (start_wp <= end_wp)%Z ->
      wps <> [] /\
      exists lane,
        get_final_waypoints s1 wps start_wp end_wp = Py.Ok lane /\
        loop s = (s1, Published lane) /\
        window_over wps start_wp end_wp lane).
Proof.
  split.
  - intros s wps start_wp end_wp Hb Hne Hle.
    exact (get_final_waypoints_shape s wps start_wp end_wp Hne Hle
             (or_introl Hb)).
  - intros s s1 wps start_wp end_wp Hcall Hle.
    destruct (loop_call_request s s1 wps start_wp end_wp Hcall) as [Hne Hreq].
    split; [exact Hne |].
    destruct (get_final_waypoints_shape s1 wps start_wp end_wp Hne Hle)
      as (lane & Hl & Hshape).
    { destruct Hreq as [Hb | Hr]; [now left | now right; right]. }
    exists lane. split; [exact Hl |]. split; [| exact Hshape].
    rewrite (loop_call_sound s s1 wps start_wp end_wp Hcall), Hl. reflexivity.
Qed.

Lemma window_shape_witness :
  loop_call (scenario_B true)
  = Some (scenario_B true, straight_path 300, 194%Z, 200%Z) /\
  (194 <= 200)%Z /\
  straight_path 300 <> [] /\
  exists lane,
    get_final_waypoints (scenario_B true) (straight_path 300) 194 200
    = Py.Ok lane /\
    loop (scenario_B true) = (scenario_B true, Published lane) /\
    window_over (straight_path 300) 194 200 lane.
Proof.
  assert (Hcall : loop_call (scenario_B true)
                  = Some (scenario_B true, straight_path 300, 194%Z, 200%Z)).
  { unfold loop_call. simpl base_waypoints. simpl current_pose. cbv iota.
    rewrite (scenario_located 300 194) by (simpl; lia).
    simpl traffic_waypoint.
    rewrite (scenario_stop_indexed 300 200) by (simpl; lia).
    reflexivity. }
  split; [exact Hcall |]. split; [lia |].
  apply (proj2 window_shape (scenario_B true) (scenario_B true)
           (straight_path 300) 194%Z 200%Z Hcall).
  lia.
Defined.

(** C6 (nearest-waypoint search). On a non-empty path the scan returns an
    index [k] of the path whose waypoint is at least as near to the pose, in
    3-D Euclidean distance, as every waypoint of the path, and strictly
    nearer than every waypoint before it: of several nearest waypoints the
    first is returned. *)
Theorem closest_waypoint_first_minimum (p : Pose) (wps : list Waypoint) :
  wps <> [] ->
  exists (k : nat) (w : Waypoint),
    get_closest_waypoint p wps = Z.of_nat k /\
    nth_error wps k = Some w /\
    (forall j wj,
        nth_error wps j = Some wj ->
        distance (position p) (position (pose w))
        <= distance (position p) (position (pose wj))) /\
    (forall j wj,
        (j < k)%nat ->
        nth_error wps j = Some wj ->
        distance (position p) (position (pose w))
        < distance (position p) (position (pose wj))).
Proof. exact (get_closest_waypoint_first_min p wps). Qed.

Lemma closest_waypoint_first_minimum_witness :
  exists (k : nat) (w : Waypoint),
    get_closest_waypoint (on_axis 0.5) (straight_path 3) = Z.of_nat k /\
    nth_error (straight_path 3) k = Some w /\
    (forall j wj,
        nth_error (straight_path 3) j = Some wj ->
        distance (mkPoint 0.5 0 0) (position (pose w))
        <= distance (mkPoint 0.5 0 0) (position (pose wj))) /\
    (forall j wj,
        (j < k)%nat ->
        nth_error (straight_path 3) j = Some wj ->
        distance (mkPoint 0.5 0 0) (position (pose w))
        < distance (mkPoint 0.5 0 0) (position (pose wj))).
Proof.
  apply (closest_waypoint_first_minimum (on_axis 0.5) (straight_path 3)).
  discriminate.
Defined.

(** C7 (heading refinement). On a non-empty path, with [w] the closest
    waypoint, the locator returns the closest index plus one when the yaw
    and the bearing to [w] differ by more than [PI / 4] in absolute value,
    and the closest index itself otherwise. The sum is not reduced modulo
    the length of the path: for a vehicle one metre past the only waypoint of
    a path of length 1 the locator returns 1. *)
Theorem heading_refinement :
  (forall (p : Pose) (wps : list Waypoint),
      wps <> [] ->
      exists w,
        nth_error wps (Z.to_nat (get_closest_waypoint p wps)) = Some w /\
        let yaw := euler_yaw (orientation p) in
        let bearing :=
          Py.atan2 (y (position (pose w)) - y (position p))
                   (x (position (pose w)) - x (position p)) in
        (Rabs (yaw - bearing) > PI / 4 ->
         get_next_waypoint p wps = Py.Ok (get_closest_waypoint p wps + 1)%Z) /\
        (Rabs (yaw - bearing) <= PI / 4 ->
         get_next_waypoint p wps = Py.Ok (get_closest_waypoint p wps)))
  /\
  get_next_waypoint (on_axis 1) (straight_path 1)
  = Py.Ok (Z.of_nat (length (straight_path 1))).
Proof.
  split; [| exact next_past_the_end].
  intros p wps Hne.
  destruct (get_next_waypoint_rule p wps Hne) as (w & Hw & _ & Hn).
  exists w. split; [exact Hw |]. intros yaw bearing.
  fold yaw bearing in Hn. rewrite Hn. split; intros Ha.
  - now rewrite fgt_true.
  - now rewrite fgt_false.
Qed.

Lemma heading_refinement_witness :
  exists w,
    nth_error (straight_path 300)
              (Z.to_nat (get_closest_waypoint (on_axis 194) (straight_path 300)))
    = Some w /\
    let yaw := euler_yaw facing_x in
    let bearing :=
      Py.atan2 (y (position (pose w)) - 0) (x (position (pose w)) - 194) in
    (Rabs (yaw - bearing) > PI / 4 ->
     get_next_waypoint (on_axis 194) (straight_path 300)
     = Py.Ok (get_closest_waypoint (on_axis 194) (straight_path 300) + 1)%Z) /\
    (Rabs (yaw - bearing) <= PI / 4 ->
     get_next_waypoint (on_axis 194) (straight_path 300)
     = Py.Ok (get_closest_waypoint (on_axis 194) (straight_path 300))).
Proof.
  apply (proj1 heading_refinement (on_axis 194) (straight_path 300)).
  apply straight_path_nonempty. lia.
Defined.

(** C9 (non-negative speeds). Every waypoint of every published window has a
    speed of at least 0: a waypoint built while the node is not braking gets
    15; while braking the creep branch and the floor branch give 3, the stop
    branch gives 0, and in the decay branch, which is only reached when the
    velocity is at least 3, the guard [v - i > 3] makes [v - i * 0.5]
    positive. *)
Theorem nonnegative_speeds :
  (forall (s s' : Node) (lane : list Waypoint),
      loop s = (s', Published lane) ->
      Forall (fun w => 0 <= linear_x w) lane)
  /\
  (forall (s : Node) (wps : list Waypoint) (end_wp i : Z) (w : Waypoint),
      braking s = false ->
      final_waypoint s wps end_wp i = Py.Ok w ->
      linear_x w = 15)
  /\
  (forall (v : R) (i : Z) (dist : R),
      (dist > 5 /\ v < 3 /\ braking_speed v i dist = 3) \/
      (dist <= 5 /\ braking_speed v i dist = 0) \/
      (dist > 5 /\ 3 <= v /\ v - IZR i > 3 /\
       braking_speed v i dist = v - IZR i * 0.5 /\ v - IZR i * 0.5 > 0) \/
      (dist > 5 /\ 3 <= v /\ v - IZR i <= 3 /\ braking_speed v i dist = 3)).
Proof.
  split; [| split].
  - intros s s' lane H. apply published_speeds in H.
    refine (Forall_impl _ _ H).
    intros w [[_ ->] | [_ (wps & i & stop & _ & _ & ->)]]; [lra |].
    apply braking_speed_nonneg.
  - intros s wps end_wp i w Hb H.
    destruct (final_waypoint_speed _ _ _ _ _ H) as [[_ Hx] | [Hb' _]];
      [exact Hx | congruence].
  - intros v i dist.
    destruct (braking_speed_cases v i dist)
      as [H | [H | [(Hd & Hv & Hg & He) | H]]]; auto.
    right; right; left. repeat split; try assumption. lra.
Qed.

Lemma nonnegative_speeds_witness :
  exists lane,
    loop scenario_A = (scenario 300 0 5 200 true, Published lane) /\
    Forall (fun w => 0 <= linear_x w) lane.
Proof.
  destruct scenario_A_window as (lane & Hl & _).
  exists lane. split; [exact Hl |].
  exact (proj1 nonnegative_speeds scenario_A _ lane Hl).
Defined.

(** C10 (speed gap). Every waypoint of a window published by a tick that
    leaves the node braking has speed 0, and then it lies within 5 m of the
    stop waypoint, or a speed of at least 3; no speed lies strictly between 0
    and 3. In the decay branch, which is only reached when the velocity is at
    least 3, the guard [v - i > 3] makes [v - i * 0.5] exceed 3. *)
Theorem speed_gap :
  (forall (s s' : Node) (lane : list Waypoint),
      loop s = (s', Published lane) ->
      braking s' = true ->
      exists wps stop,
        base_waypoints s = Some wps /\
        Py.getitem wps (traffic_waypoint s) = Py.Ok stop /\
        Forall (fun w =>
                  (linear_x w = 0 /\
                   distance (position (pose w)) (position (pose stop)) <= 5)
                  \/ 3 <= linear_x w)
               lane /\
        Forall (fun w => ~ (0 < linear_x w < 3)) lane)
  /\
  (forall (v : R) (i : Z) (dist : R),
      (braking_speed v i dist = 0 /\ dist <= 5) \/
      (3 <= braking_speed v i dist /\ dist > 5))
  /\
  (forall (v : R) (i : Z) (dist : R),
      dist > 5 -> 3 <= v -> v - IZR i > 3 ->
      braking_speed v i dist = v - IZR i * 0.5 /\ v - IZR i * 0.5 > 3).
Proof.
  split; [| split].
  - intros s s' lane H Hb.
    destruct (loop_published_inv s s' lane H)
      as (wps & p & next_wp & stop & Hw & Hp & Hn & Hs & _).
    exists wps, stop. split; [exact Hw |]. split; [exact Hs |].
    apply published_speeds in H.
    assert (HF : Forall (fun w =>
                           (linear_x w = 0 /\
                            distance (position (pose w)) (position (pose stop))
                            <= 5)
                           \/ 3 <= linear_x w) lane).
    { refine (Forall_impl _ _ H).
      intros w [[Hb' _] | [_ (wps' & i & stop' & Hw' & Hs' & Hx)]];
        [congruence |].
      assert (wps' = wps) by congruence. subst wps'.
      assert (stop' = stop) by congruence. subst stop'.
      rewrite Hx. apply braking_speed_zero_or_fast. }
    split; [exact HF |].
    refine (Forall_impl _ _ HF). intros w [[-> _] | Hge]; lra.
  - intros v i dist.
    pose proof (braking_speed_cases v i dist) as Hcases.
    unfold STOP_BUFFER in Hcases.
    destruct Hcases
      as [(? & ? & ->) | [(? & ->) | [(? & ? & ? & ->) | (? & ? & ? & ->)]]];
      [right | left | right | right]; lra.
  - intros v i dist Hd Hv Hg.
    pose proof (braking_speed_cases v i dist) as Hcases.
    unfold STOP_BUFFER in Hcases.
    destruct Hcases
      as [(? & ? & ?) | [(? & ?) | [(? & ? & ? & ->) | (? & ? & ? & ?)]]];
      lra.
Qed.

Lemma speed_gap_witness :
  (exists lane wps stop,
      loop (scenario_B true) = (scenario_B true, Published lane) /\
      base_waypoints (scenario_B true) = Some wps /\
      Py.getitem wps (traffic_waypoint (scenario_B true)) = Py.Ok stop /\
      Forall (fun w =>
                (linear_x w = 0 /\
                 distance (position (pose w)) (position (pose stop)) <= 5)
                \/ 3 <= linear_x w)
             lane /\
      Forall (fun w => ~ (0 < linear_x w < 3)) lane)
  /\
  (braking_speed 5 0 200 = 5 - 0 * 0.5 /\ 5 - 0 * 0.5 > 3).
Proof.
  split.
  - destruct scenario_B_braking_window as (lane & Hl & _).
    destruct (proj1 speed_gap (scenario_B true) _ lane Hl eq_refl)
      as (wps & stop & H).
    exists lane, wps, stop. split; [exact Hl | exact H].
  - apply (proj2 (proj2 speed_gap) 5 0%Z 200); lra.
Defined.

(** * Further properties of the node *)

(** ** [distance] is a metric *)

Lemma sum_sqr_zero (a b c : R) : a * a + b * b + c * c = 0 -> a = 0 /\ b = 0 /\ c = 0.
Proof. intros H. repeat split; nra. Qed.

Lemma sum_sqr_nonneg (a b c : R) : 0 <= a * a + b * b + c * c.
Proof. nra. Qed.

Lemma dot_le_norms (a1 a2 a3 b1 b2 b3 : R) :
  a1 * b1 + a2 * b2 + a3 * b3
  <= sqrt (a1 * a1 + a2 * a2 + a3 * a3) * sqrt (b1 * b1 + b2 * b2 + b3 * b3).
Proof.
  set (A := a1 * a1 + a2 * a2 + a3 * a3).
  set (B := b1 * b1 + b2 * b2 + b3 * b3).
  set (D := a1 * b1 + a2 * b2 + a3 * b3).
  assert (HA : 0 <= A) by apply sum_sqr_nonneg.
  assert (HB : 0 <= B) by apply sum_sqr_nonneg.
  assert (HCS : D * D <= A * B).
  { assert (E : A * B - D * D
                = (a1 * b2 - a2 * b1) * (a1 * b2 - a2 * b1)
                  + (a1 * b3 - a3 * b1) * (a1 * b3 - a3 * b1)
                  + (a2 * b3 - a3 * b2) * (a2 * b3 - a3 * b2))
      by (unfold A, B, D; ring).
    assert (0 <= A * B - D * D); [| lra].
    rewrite E. repeat apply Rplus_le_le_0_compat; apply Rle_0_sqr. }
  rewrite <- sqrt_mult by assumption.
  apply Rle_trans with (Rabs D); [apply Rle_abs |].
  rewrite <- sqrt_Rsqr_abs. apply sqrt_le_1_alt. exact HCS.
Qed.

(** X1. [distance] is a metric on points: it is never negative, it is
    symmetric, it is 0 exactly between equal points, and it satisfies the
    triangle inequality. *)
Theorem distance_metric (p q r : Point) :
  0 <= distance p q /\
  distance p q = distance q p /\
  (distance p q = 0 <-> p = q) /\
  distance p r <= distance p q + distance q r.
Proof.
  split; [apply distance_nonneg |].
  split; [unfold distance; f_equal; ring |].
  split.
  - split.
    + unfold distance. cbv zeta. intros H.
      apply sqrt_eq_0 in H; [| apply sum_sqr_nonneg].
      apply sum_sqr_zero in H. destruct H as (Hx & Hy & Hz).
      destruct p as [px py pz], q as [qx' qy' qz']; simpl in *.
      f_equal; lra.
    + intros ->. unfold distance. cbv zeta.
      replace ((x q - x q) * (x q - x q) + (y q - y q) * (y q - y q)
               + (z q - z q) * (z q - z q)) with 0 by ring.
      apply sqrt_0.
  - unfold distance. cbv zeta.
    set (a1 := x p - x q). set (a2 := y p - y q). set (a3 := z p - z q).
    set (b1 := x q - x r). set (b2 := y q - y r). set (b3 := z q - z r).
    replace (x p - x r) with (a1 + b1) by (unfold a1, b1; ring).
    replace (y p - y r) with (a2 + b2) by (unfold a2, b2; ring).
    replace (z p - z r) with (a3 + b3) by (unfold a3, b3; ring).
    pose proof (dot_le_norms a1 a2 a3 b1 b2 b3) as Hdot.
    set (A := a1 * a1 + a2 * a2 + a3 * a3) in *.
    set (B := b1 * b1 + b2 * b2 + b3 * b3) in *.
    assert (HA : 0 <= A) by apply sum_sqr_nonneg.
    assert (HB : 0 <= B) by apply sum_sqr_nonneg.
    pose proof (sqrt_pos A) as HsA. pose proof (sqrt_pos B) as HsB.
    apply Rsqr_incr_0_var; [| lra].
    rewrite Rsqr_sqrt by apply sum_sqr_nonneg.
    unfold Rsqr.
    pose proof (sqrt_sqrt A HA) as EA. pose proof (sqrt_sqrt B HB) as EB.
    revert Hdot EA EB. generalize (sqrt A) (sqrt B). intros sA sB Hdot EA EB.
    unfold A, B in EA, EB. clearbody a1 a2 a3 b1 b2 b3. nra.
Qed.

(** ** When a tick raises and when it publishes *)

(** X2. With an empty path the scan of [get_closest_waypoint] returns 0, so
    [get_next_waypoint] raises [IndexError] at [waypoints[0]]; a tick of a
    node that has received an empty path and a pose raises [IndexError]
    before it publishes, and leaves every attribute as it was. *)
Theorem empty_path_raises (s : Node) (p : Pose) :
  base_waypoints s = Some [] ->
  current_pose s = Some p ->
  get_closest_waypoint p [] = 0%Z /\
  get_next_waypoint p [] = Py.Raise Py.IndexError /\
  loop s = (s, Raised Py.IndexError).
Proof.
  intros Hw Hp. split; [reflexivity |]. split; [reflexivity |].
  unfold loop. rewrite Hw, Hp. reflexivity.
Qed.

Lemma empty_path_raises_witness :
  loop (base_waypoints_cb (current_pose_cb init (on_axis 0)) [])
  = (base_waypoints_cb (current_pose_cb init (on_axis 0)) [],
     Raised Py.IndexError).
Proof.
  apply (empty_path_raises _ (on_axis 0)); reflexivity.
Defined.

(** X3. A stop index that is no index of the path (below [-L] or at least
    [L]) makes the tick raise [IndexError] at [wpts[traffic_wp]], before the
    braking decision: nothing is published and the braking flag keeps its
    value. *)
Theorem stop_index_out_of_range
        (s : Node) (wps : list Waypoint) (p : Pose) :
  base_waypoints s = Some wps ->
  current_pose s = Some p ->
  wps <> [] ->
  (traffic_waypoint s < - Z.of_nat (length wps) \/
   Z.of_nat (length wps) <= traffic_waypoint s)%Z ->
  loop s = (s, Raised Py.IndexError).
Proof.
  intros Hw Hp Hne Hout.
  destruct (get_next_waypoint_Ok p wps Hne) as (next_wp & Hn & _).
  unfold loop. rewrite Hw, Hp, Hn, (getitem_invalid wps _ Hout). reflexivity.
Qed.

Lemma stop_index_out_of_range_witness :
  loop (scenario 11 0 0 11 true) = (scenario 11 0 0 11 true, Raised Py.IndexError).
Proof.
  apply (stop_index_out_of_range _ (straight_path 11) (on_axis 0)).
  - reflexivity.
  - reflexivity.
  - discriminate.
  - right. rewrite straight_path_length. simpl. lia.
Defined.

(** X4. A tick of a node that has received a pose and a non-empty path, and
    whose stop index is [-1] or any other index of the path
    ([-L <= traffic_wp < L]), never raises: it publishes a window. The
    window has 200 waypoints when the tick leaves the node cruising and
    [max 0 (traffic_wp - next_wp)] waypoints, which may be more than 200,
    when it leaves it braking. *)
Theorem tick_publishes (s : Node) (wps : list Waypoint) (p : Pose) :
  base_waypoints s = Some wps ->
  current_pose s = Some p ->
  wps <> [] ->
  (- Z.of_nat (length wps) <= traffic_waypoint s < Z.of_nat (length wps))%Z ->
  exists lane next_wp,
    get_next_waypoint p wps = Py.Ok next_wp /\
    snd (loop s) = Published lane /\
    Z.of_nat (length lane)
    = if braking (fst (loop s))
      then Z.max 0 (traffic_waypoint s - next_wp)
      else LOOKAHEAD_WPS.
Proof.
  intros Hw Hp Hne Hr.
  destruct (loop_ready s wps p Hw Hp Hne Hr) as (next_wp & stop & Hn & Hs).
  destruct (Z.eq_dec (traffic_waypoint s) (-1)) as [Ht | Ht].
  - destruct (loop_no_signal s wps p next_wp stop Hw Hp Hn Hs Ht)
      as (lane & Hl & HF).
    exists lane, next_wp. rewrite Hl. simpl.
    repeat split; try assumption.
    apply cruise_window_facts in HF. destruct HF as [-> _]. reflexivity.
  - destruct (braking s) eqn:Hb.
    + destruct (loop_stop s wps p next_wp stop Hw Hp Hn Hs Ht (or_introl Hb))
        as (lane & Hl & HF).
      exists lane, next_wp. rewrite Hl. simpl.
      repeat split; try assumption. exact (window_length _ _ _ HF).
    + destruct (Rlt_le_dec (distance (position p) (position (pose stop)))
                           (min_stopping_dist (current_velocity s)))
        as [Hd | Hd].
      * destruct (loop_too_short s wps p next_wp stop Hw Hp Hn Hs Ht Hb Hd)
          as (lane & Hl & HF).
        exists lane, next_wp. rewrite Hl. simpl. rewrite Hb.
        repeat split; try assumption.
        apply cruise_window_facts in HF. destruct HF as [-> _]. reflexivity.
      * destruct (loop_stop s wps p next_wp stop Hw Hp Hn Hs Ht (or_intror Hd))
          as (lane & Hl & HF).
        exists lane, next_wp. rewrite Hl. simpl.
        repeat split; try assumption. exact (window_length _ _ _ HF).
Qed.

Lemma tick_publishes_witness :
  exists lane next_wp,
    get_next_waypoint (on_axis 0) (straight_path 300) = Py.Ok next_wp /\
    snd (loop (scenario 300 0 5 250 true)) = Published lane /\
    Z.of_nat (length lane)
    = if braking (fst (loop (scenario 300 0 5 250 true)))
      then Z.max 0 (250 - next_wp)
      else LOOKAHEAD_WPS.
Proof.
  apply (tick_publishes (scenario 300 0 5 250 true) (straight_path 300)
           (on_axis 0)).
  - reflexivity.
  - reflexivity.
  - apply straight_path_nonempty. lia.
  - rewrite straight_path_length. simpl. lia.
Defined.

(** X5. A braking tick whose stop index is not ahead of the next waypoint
    ([traffic_wp <= next_wp], which holds for every negative index other
    than [-1]) publishes an empty window. *)
Theorem stop_not_ahead_empty_window
        (s : Node) (wps : list Waypoint) (p : Pose) (next_wp : Z)
        (stop : Waypoint) :
  base_waypoints s = Some wps ->
  current_pose s = Some p ->
  get_next_waypoint p wps = Py.Ok next_wp ->
  Py.getitem wps (traffic_waypoint s) = Py.Ok stop ->
  traffic_waypoint s <> (-1)%Z ->
  braking s = true \/
  min_stopping_dist (current_velocity s)
  <= distance (position p) (position (pose stop)) ->
  (traffic_waypoint s <= next_wp \/ traffic_waypoint s < 0)%Z ->
  loop s = (set_braking s true, Published []).
Proof.
  intros Hw Hp Hn Hs Ht Hc Hbehind.
  assert (Hle : (traffic_waypoint s <= next_wp)%Z).
  { destruct Hbehind as [H | H]; [exact H |].
    destruct (get_next_waypoint_Ok p wps (getitem_nonempty _ _ _ Hs))
      as (n' & Hn' & Hr).
    rewrite Hn in Hn'. injection Hn' as <-. lia. }
  destruct (loop_stop s wps p next_wp stop Hw Hp Hn Hs Ht Hc)
    as (lane & Hl & HF).
  rewrite range_empty in HF by exact Hle. inversion HF. subst. exact Hl.
Qed.

Lemma stop_not_ahead_empty_window_witness :
  loop (scenario 300 194 5 100 true)
  = (set_braking (scenario 300 194 5 100 true) true, Published []).
Proof.
  apply (stop_not_ahead_empty_window (scenario 300 194 5 100 true)
           (straight_path 300) (on_axis 194) 194
           (mkWaypoint (on_axis 100) 0)).
  - reflexivity.
  - reflexivity.
  - apply (scenario_located 300 194). simpl; lia.
  - apply (scenario_stop_indexed 300 100). simpl; lia.
  - discriminate.
  - left. reflexivity.
  - left. simpl. lia.
Defined.

(** X6. [get_final_waypoints] on an empty path raises [ZeroDivisionError] at
    [i % len(waypoints)] as soon as the window is non-empty, braking or not;
    an empty window ([end_wp <= start_wp]) is returned as the empty list for
    every path and never touches [waypoints[end_wp]]. *)
Theorem final_waypoints_edge_windows (s : Node) (start_wp end_wp : Z) :
  ((start_wp < end_wp)%Z ->
   get_final_waypoints s [] start_wp end_wp = Py.Raise Py.ZeroDivisionError)
  /\
  ((end_wp <= start_wp)%Z ->
   forall wps, get_final_waypoints s wps start_wp end_wp = Py.Ok []).
Proof.
  split.
  - intros Hlt. unfold get_final_waypoints.
    destruct (Py.range start_wp end_wp) as [| i rest] eqn:E.
    + apply (f_equal (@length _)) in E. rewrite range_length in E.
      simpl in E. lia.
    + reflexivity.
  - intros Hle wps. unfold get_final_waypoints.
    now rewrite range_empty.
Qed.

Lemma final_waypoints_edge_windows_witness :
  get_final_waypoints init [] 0 1 = Py.Raise Py.ZeroDivisionError /\
  get_final_waypoints init (straight_path 3) 2 2 = Py.Ok [].
Proof.
  split.
  - apply (proj1 (final_waypoints_edge_windows init 0 1)). lia.
  - apply (proj2 (final_waypoints_edge_windows init 2 2)). lia.
Defined.

(** ** What a tick changes *)

Lemma set_braking_same (s : Node) : set_braking s (braking s) = s.
Proof. destruct s; reflexivity. Qed.

(** A tick that gets past both index checks publishes. *)
Lemma loop_indexed_publishes (s : Node) (wps : list Waypoint) (p : Pose)
      (next_wp : Z) (stop : Waypoint) :
  base_waypoints s = Some wps ->
  current_pose s = Some p ->
  get_next_waypoint p wps = Py.Ok next_wp ->
  Py.getitem wps (traffic_waypoint s) = Py.Ok stop ->
  exists s' lane, loop s = (s', Published lane).
Proof.
  intros Hw Hp Hn Hs.
  destruct (Z.eq_dec (traffic_waypoint s) (-1)) as [Ht | Ht].
  - destruct (loop_no_signal s wps p next_wp stop Hw Hp Hn Hs Ht)
      as (lane & Hl & _). eauto.
  - destruct (braking s) eqn:Hb.
    + destruct (loop_stop s wps p next_wp stop Hw Hp Hn Hs Ht (or_introl Hb))
        as (lane & Hl & _). eauto.
    + destruct (Rlt_le_dec (distance (position p) (position (pose stop)))
                           (min_stopping_dist (current_velocity s)))
        as [Hd | Hd].
      * destruct (loop_too_short s wps p next_wp stop Hw Hp Hn Hs Ht Hb Hd)
          as (lane & Hl & _). eauto.
      * destruct (loop_stop s wps p next_wp stop Hw Hp Hn Hs Ht (or_intror Hd))
          as (lane & Hl & _). eauto.
Qed.

(** A tick that does not publish leaves the node as it was. *)
Lemma loop_unpublished_state (s : Node) :
  (forall lane, snd (loop s) <> Published lane) -> fst (loop s) = s.
Proof.
  intros Hnot.
  destruct (base_waypoints s) as [wps |] eqn:Hw;
    [| rewrite loop_not_ready by auto; reflexivity].
  destruct (current_pose s) as [p |] eqn:Hp;
    [| rewrite loop_not_ready by auto; reflexivity].
  destruct (get_next_waypoint p wps) as [next_wp | e] eqn:Hn;
    [| unfold loop; rewrite Hw, Hp, Hn; reflexivity].
  destruct (Py.getitem wps (traffic_waypoint s)) as [stop | e] eqn:Hs;
    [| unfold loop; rewrite Hw, Hp, Hn, Hs; reflexivity].
  destruct (loop_indexed_publishes s wps p next_wp stop Hw Hp Hn Hs)
    as (s' & lane & Hl).
  exfalso. apply (Hnot lane). rewrite Hl. reflexivity.
Qed.

(** X7. A tick writes no attribute but the braking flag: the path, the pose,
    the velocity, the stop index, [decel] and the obstacle index are what
    they were; and the flag itself changes only on a tick that publishes (a
    skipped tick and a tick that raises leave the node as it was). *)
Theorem tick_frame (s : Node) :
  fst (loop s) = set_braking s (braking (fst (loop s))) /\
  ((forall lane, snd (loop s) <> Published lane) -> fst (loop s) = s).
Proof.
  split; [| apply loop_unpublished_state].
  destruct (loop_state s) as [-> | [[_ ->] | [_ ->]]];
    [symmetry; apply set_braking_same | reflexivity | reflexivity].
Qed.

Lemma tick_frame_witness :
  fst (loop (scenario 11 0 0 11 true)) = scenario 11 0 0 11 true.
Proof.
  apply (proj2 (tick_frame (scenario 11 0 0 11 true))).
  intros lane.
  unfold loop. simpl base_waypoints. simpl current_pose. cbv iota.
  rewrite (scenario_located 11 0) by (simpl; lia).
  discriminate.
Defined.

(** X8. A tick is idempotent: when no message arrives in between, the next
    tick leaves the node in the same state and has the same outcome (the same
    window, the same exception, or again nothing). *)
Theorem tick_idempotent (s : Node) : loop (fst (loop s)) = loop s.
Proof.
  destruct (loop s) as [s' o] eqn:Hl. simpl.
  destruct o as [| lane | e].
  - assert (H : fst (loop s) = s)
      by (apply loop_unpublished_state; intros lane; rewrite Hl; discriminate).
    rewrite Hl in H. simpl in H. subst s'. exact Hl.
  - destruct (loop_published_inv s s' lane Hl)
      as (wps & p & next_wp & stop & Hw & Hp & Hn & Hs & Hcase).
    destruct Hcase as [(Ht & -> & Hg) | [(Ht & Hb & -> & Hd & Hg)
                                        | (Ht & -> & Hc & Hg)]].
    + unfold loop. simpl base_waypoints. simpl current_pose.
      simpl traffic_waypoint. rewrite Hw, Hp, Hn, Hs, Ht.
      change (-1 =? -1)%Z with true. cbv iota.
      change (set_braking (set_braking s false) false)
        with (set_braking s false).
      rewrite Hg. reflexivity.
    + exact Hl.
    + unfold loop. simpl base_waypoints. simpl current_pose.
      simpl traffic_waypoint. rewrite Hw, Hp, Hn, Hs.
      destruct (Z.eqb_spec (traffic_waypoint s) (-1)); [contradiction |].
      simpl braking. cbn [negb andb]. cbv iota.
      change (set_braking (set_braking s true) true)
        with (set_braking s true).
      rewrite Hg. reflexivity.
  - assert (H : fst (loop s) = s)
      by (apply loop_unpublished_state; intros lane; rewrite Hl; discriminate).
    rewrite Hl in H. simpl in H. subst s'. exact Hl.
Qed.

(** ** What a published window holds *)

Lemma getitem_Ok_In {A : Type} (l : list A) (i : Z) (a : A) :
  Py.getitem l i = Py.Ok a -> In a l.
Proof.
  intros H. apply getitem_Ok_inv in H. destruct H as [_ H].
  exact (nth_error_In _ _ H).
Qed.

(** The source of an entry is a waypoint of the path. *)
Lemma final_waypoint_source (s : Node) (wps : list Waypoint) (end_wp i : Z)
      (w : Waypoint) :
  final_waypoint s wps end_wp i = Py.Ok w ->
  exists src, In src wps /\ pose w = pose src.
Proof.
  unfold final_waypoint. intros H.
  destruct (Py.mod_ i (Z.of_nat (length wps))) as [index | e]; simpl in H;
    [| discriminate].
  destruct (Py.getitem wps index) as [src | e] eqn:Hsrc; simpl in H;
    [| discriminate].
  exists src. split; [exact (getitem_Ok_In _ _ _ Hsrc) |].
  destruct (braking s); simpl in H.
  - destruct (Py.getitem wps end_wp) as [stop | e]; simpl in H;
      [| discriminate].
    injection H as <-. destruct src as [[[? ? ?] ?] ?]. reflexivity.
  - injection H as <-. destruct src as [[[? ? ?] ?] ?]. reflexivity.
Qed.

(** The window of a publishing tick, entry by entry: the loop indices start
    at the located waypoint, which is not negative. *)
Lemma published_entries (s s' : Node) (lane : list Waypoint) :
  loop s = (s', Published lane) ->
  exists wps p next_wp end_wp,
    base_waypoints s = Some wps /\
    current_pose s = Some p /\
    get_next_waypoint p wps = Py.Ok next_wp /\
    (0 <= next_wp)%Z /\
    current_velocity s' = current_velocity s /\
    Forall2 (fun i w => (next_wp <= i)%Z /\
                        final_waypoint s' wps end_wp i = Py.Ok w)
            (Py.range next_wp end_wp) lane.
Proof.
  intros H.
  destruct (loop_published_inv s s' lane H)
    as (wps & p & next_wp & stop & Hw & Hp & Hn & Hs & Hcase).
  assert (Hpos : (0 <= next_wp)%Z).
  { destruct (get_next_waypoint_Ok p wps (getitem_nonempty _ _ _ Hs))
      as (n' & Hn' & Hr). rewrite Hn in Hn'. injection Hn' as <-. lia. }
  assert (Hgen : forall end_wp,
             get_final_waypoints s' wps next_wp end_wp = Py.Ok lane ->
             Forall2 (fun i w => (next_wp <= i)%Z /\
                                 final_waypoint s' wps end_wp i = Py.Ok w)
                     (Py.range next_wp end_wp) lane).
  { intros end_wp Hg. apply for_each_inv in Hg.
    refine (Forall2_impl_in _ _ _ _ _ Hg).
    intros i w Hin Hf. apply in_range in Hin. split; [lia | exact Hf]. }
  destruct Hcase as [(Ht & Hs' & Hg) | [(Ht & Hb & Hs' & Hd & Hg)
                                       | (Ht & Hs' & Hc & Hg)]];
    eexists wps, p, next_wp, _;
    (repeat split; [exact Hw | exact Hp | exact Hn | exact Hpos
                    | subst s'; reflexivity | exact (Hgen _ Hg)]).
Qed.

(** X9. A published window holds no pose of its own making: the position
    and the orientation of each of its waypoints are those of some waypoint
    of the path. *)
Theorem published_poses_from_path (s s' : Node) (lane : list Waypoint) :
  loop s = (s', Published lane) ->
  exists wps,
    base_waypoints s = Some wps /\
    Forall (fun w => exists src, In src wps /\ pose w = pose src) lane.
Proof.
  intros H.
  destruct (published_entries s s' lane H)
    as (wps & p & next_wp & end_wp & Hw & _ & _ & _ & _ & HF).
  exists wps. split; [exact Hw |].
  apply (Forall2_Forall_r _ _ _ _ HF).
  intros i w [_ Hf]. exact (final_waypoint_source _ _ _ _ _ Hf).
Qed.

Lemma published_poses_from_path_witness :
  exists lane wps,
    loop (scenario_B true) = (scenario_B true, Published lane) /\
    base_waypoints (scenario_B true) = Some wps /\
    Forall (fun w => exists src, In src wps /\ pose w = pose src) lane.
Proof.
  destruct scenario_B_braking_window as (lane & Hl & _).
  destruct (published_poses_from_path (scenario_B true) _ lane Hl)
    as (wps & H).
  exists lane, wps. split; [exact Hl | exact H].
Defined.

Lemma braking_speed_upper (v : R) (i : Z) (dist : R) :
  (0 <= i)%Z -> braking_speed v i dist <= Rmax 3 v.
Proof.
  intros Hi. apply IZR_le in Hi.
  pose proof (Rmax_l 3 v). pose proof (Rmax_r 3 v).
  destruct (braking_speed_cases v i dist)
    as [(_ & _ & ->) | [(_ & ->) | [(_ & _ & _ & ->) | (_ & _ & _ & ->)]]];
    lra.
Qed.

(** X10. No published speed exceeds 15 when the tick leaves the node
    cruising, and none exceeds the larger of 3 and the current velocity when
    it leaves it braking: a braking window never asks for more than the
    creep speed or the speed the vehicle already has. *)
Theorem published_speed_bound (s s' : Node) (lane : list Waypoint) :
  loop s = (s', Published lane) ->
  Forall (fun w =>
            linear_x w <= if braking s' then Rmax 3 (current_velocity s)
                          else 15)
         lane.
Proof.
  intros H.
  destruct (published_entries s s' lane H)
    as (wps & p & next_wp & end_wp & _ & _ & _ & Hpos & Hv & HF).
  apply (Forall2_Forall_r _ _ _ _ HF).
  intros i w [Hi Hf].
  destruct (final_waypoint_speed _ _ _ _ _ Hf)
    as [[-> ->] | [-> (stop & _ & ->)]]; [lra |].
  rewrite Hv. apply braking_speed_upper. lia.
Qed.

Lemma published_speed_bound_witness :
  exists lane,
    loop scenario_A = (scenario 300 0 5 200 true, Published lane) /\
    Forall (fun w => linear_x w <= Rmax 3 5) lane.
Proof.
  destruct scenario_A_window as (lane & Hl & _).
  exists lane. split; [exact Hl |].
  exact (published_speed_bound scenario_A _ lane Hl).
Defined.

(** X11. The decay branch only fires for loop indices below
    [current_velocity - 3]. A braking window whose first index [next_wp] is
    at least [current_velocity - 3] (every braking window at a velocity of
    at most 3) therefore holds only the speeds 0 and 3. *)
Theorem braking_profile_two_valued
        (s s' : Node) (lane wps : list Waypoint) (p : Pose) (next_wp : Z) :
  loop s = (s', Published lane) ->
  braking s' = true ->
  base_waypoints s = Some wps ->
  current_pose s = Some p ->
  get_next_waypoint p wps = Py.Ok next_wp ->
  current_velocity s - 3 <= IZR next_wp ->
  Forall (fun w => linear_x w = 0 \/ linear_x w = 3) lane.
Proof.
  intros H Hb Hw Hp Hn Hv.
  destruct (published_entries s s' lane H)
    as (wps' & p' & next' & end_wp & Hw' & Hp' & Hn' & _ & Hvel & HF).
  assert (wps' = wps) by congruence. subst wps'.
  assert (p' = p) by congruence. subst p'.
  assert (next' = next_wp) by congruence. subst next'.
  apply (Forall2_Forall_r _ _ _ _ HF).
  intros i w [Hi Hf]. apply IZR_le in Hi.
  destruct (final_waypoint_speed _ _ _ _ _ Hf)
    as [[Hb' _] | [_ (stop & _ & ->)]]; [congruence |].
  rewrite Hvel.
  destruct (braking_speed_cases (current_velocity s) i
              (distance (position (pose w)) (position (pose stop))))
    as [(_ & _ & ->) | [(_ & ->) | [(_ & _ & Hg & _) | (_ & _ & _ & ->)]]];
    auto. lra.
Qed.

Lemma braking_profile_two_valued_witness :
  exists lane,
    loop (scenario_B true) = (scenario_B true, Published lane) /\
    Forall (fun w => linear_x w = 0 \/ linear_x w = 3) lane.
Proof.
  destruct scenario_B_braking_window as (lane & Hl & _).
  exists lane. split; [exact Hl |].
  apply (braking_profile_two_valued (scenario_B true) (scenario_B true) lane
           (straight_path 300) (on_axis 194) 194 Hl).
  - reflexivity.
  - reflexivity.
  - reflexivity.
  - apply (scenario_located 300 194). simpl; lia.
  - simpl. lra.
Defined.

(** ** The locator *)

(** X12. On a non-empty path of length [L] the locator never raises: the
    closest index is an index of the path ([0 <= closest < L]) and the next
    waypoint is the closest index or its successor, so it lies in [0, L]. *)
Theorem locator_bounds (p : Pose) (wps : list Waypoint) :
  wps <> [] ->
  (0 <= get_closest_waypoint p wps < Z.of_nat (length wps))%Z /\
  exists next_wp,
    get_next_waypoint p wps = Py.Ok next_wp /\
    (next_wp = get_closest_waypoint p wps \/
     next_wp = (get_closest_waypoint p wps + 1)%Z) /\
    (0 <= next_wp <= Z.of_nat (length wps))%Z.
Proof.
  intros Hne.
  destruct (get_next_waypoint_rule p wps Hne) as (w & _ & Hr & Hn).
  split; [exact Hr |]. rewrite Hn.
  eexists. split; [reflexivity |].
  destruct (Py.fgt _ _); split; auto; lia.
Qed.

Lemma locator_bounds_witness :
  (0 <= get_closest_waypoint (on_axis 0.5) (straight_path 3)
   < Z.of_nat (length (straight_path 3)))%Z /\
  exists next_wp,
    get_next_waypoint (on_axis 0.5) (straight_path 3) = Py.Ok next_wp /\
    (next_wp = get_closest_waypoint (on_axis 0.5) (straight_path 3) \/
     next_wp = (get_closest_waypoint (on_axis 0.5) (straight_path 3) + 1)%Z) /\
    (0 <= next_wp <= Z.of_nat (length (straight_path 3)))%Z.
Proof.
  apply (locator_bounds (on_axis 0.5) (straight_path 3)). discriminate.
Defined.

Lemma distance_zero (p q : Point) : distance p q = 0 -> p = q.
Proof.
  unfold distance. cbv zeta. intros H.
  apply sqrt_eq_0 in H; [| apply sum_sqr_nonneg].
  apply sum_sqr_zero in H. destruct H as (Hx & Hy & Hz).
  destruct p as [px py pz], q as [qx' qy' qz']; simpl in *.
  f_equal; lra.
Qed.

Lemma distance_same (p : Point) : distance p p = 0.
Proof.
  unfold distance. cbv zeta.
  replace ((x p - x p) * (x p - x p) + (y p - y p) * (y p - y p)
           + (z p - z p) * (z p - z p)) with 0 by ring.
  apply sqrt_0.
Qed.

(** X13. When the vehicle stands exactly on a waypoint of the path, the
    scan returns the first index whose waypoint has that position. *)
Theorem closest_exact_hit
        (p : Pose) (wps : list Waypoint) (j : nat) (w : Waypoint) :
  nth_error wps j = Some w ->
  position (pose w) = position p ->
  (forall i wi,
      (i < j)%nat -> nth_error wps i = Some wi ->
      position (pose wi) <> position p) ->
  get_closest_waypoint p wps = Z.of_nat j.
Proof.
  intros Hj Hpos Hfirst.
  assert (Hne : wps <> []) by (intros ->; destruct j; discriminate).
  destruct (get_closest_waypoint_first_min p wps Hne)
    as (k & wk & Hk & Hnk & Hmin & Hstrict).
  rewrite Hk. f_equal.
  assert (Hd : distance (position p) (position (pose w)) = 0)
    by (rewrite Hpos; apply distance_same).
  assert (Hdk : distance (position p) (position (pose wk)) = 0).
  { pose proof (Hmin j w Hj). pose proof (distance_nonneg (position p)
                                            (position (pose wk))). lra. }
  destruct (Nat.lt_trichotomy k j) as [Hlt | [Heq | Hgt]].
  - exfalso. apply (Hfirst k wk Hlt Hnk). symmetry.
    now apply distance_zero.
  - exact Heq.
  - exfalso. pose proof (Hstrict j w Hgt Hj). lra.
Qed.

Lemma closest_exact_hit_witness :
  get_closest_waypoint (on_axis 2) (straight_path 4) = Z.of_nat 2.
Proof.
  apply (closest_exact_hit (on_axis 2) (straight_path 4) 2
           (mkWaypoint (on_axis (INR 2)) 0)).
  - reflexivity.
  - simpl. f_equal; lra.
  - intros i wi Hi Hn E.
    apply straight_path_nth_inv in Hn. destruct Hn as [_ ->].
    simpl in E. injection E as E.
    assert (Hle : INR i <= 1).
    { replace 1 with (INR 1) by reflexivity. apply le_INR. lia. }
    lra.
Defined.

(** ** Cruise windows *)

Lemma for_each_map {A B C : Type} (f : A -> B) (body : B -> Py.Result C)
      (l : list A) :
  Py.for_each body (map f l) = Py.for_each (fun a => body (f a)) l.
Proof.
  induction l as [| a rest IH]; simpl; [reflexivity |]. now rewrite IH.
Qed.

Lemma for_each_ext {A B : Type} (body body' : A -> Py.Result B) (l : list A) :
  (forall a, body a = body' a) -> Py.for_each body l = Py.for_each body' l.
Proof.
  intros H. induction l as [| a rest IH]; simpl; [reflexivity |].
  now rewrite H, IH.
Qed.

Lemma for_each_app {A B : Type} (body : A -> Py.Result B) (l1 l2 : list A) :
  Py.for_each body (l1 ++ l2)
  = (r1 <- Py.for_each body l1 ;;
     r2 <- Py.for_each body l2 ;;
     Py.Ok (r1 ++ r2)).
Proof.
  induction l1 as [| a rest IH]; simpl.
  - destruct (Py.for_each body l2); reflexivity.
  - destruct (body a) as [b | e]; simpl; [| reflexivity].
    rewrite IH.
    destruct (Py.for_each body rest) as [r1 | e]; simpl; [| reflexivity].
    destruct (Py.for_each body l2); reflexivity.
Qed.

Lemma range_shift (lo hi n : Z) :
  Py.range (lo + n) (hi + n) = map (fun i => (i + n)%Z) (Py.range lo hi).
Proof.
  unfold Py.range. rewrite map_map.
  replace (hi + n - (lo + n))%Z with (hi - lo)%Z by ring.
  apply map_ext. intros k. ring.
Qed.

Lemma map_seq_offset (a : Z) (m : nat) (len : nat) :
  forall k,
    map (fun x => (a + Z.of_nat x)%Z) (seq (m + k) len)
    = map (fun x => (a + Z.of_nat m + Z.of_nat x)%Z) (seq k len).
Proof.
  induction len as [| len IH]; intros k; simpl; [reflexivity |].
  f_equal; [lia |]. rewrite <- IH. f_equal. f_equal. lia.
Qed.

Lemma range_split (a b c : Z) :
  (a <= b <= c)%Z -> Py.range a c = Py.range a b ++ Py.range b c.
Proof.
  intros H. unfold Py.range.
  replace (Z.to_nat (c - a)) with (Z.to_nat (b - a) + Z.to_nat (c - b))%nat
    by lia.
  rewrite seq_app, map_app. f_equal.
  replace (0 + Z.to_nat (b - a))%nat with (Z.to_nat (b - a) + 0)%nat by lia.
  rewrite map_seq_offset. apply map_ext. intros k. lia.
Qed.

(** While the node is not braking an entry depends on its loop index only
    modulo the length of the path, and not on [end_wp]. *)
Lemma final_waypoint_cruise_mod (s : Node) (wps : list Waypoint)
      (end_wp end_wp' i : Z) :
  braking s = false ->
  final_waypoint s wps end_wp (i + Z.of_nat (length wps))
  = final_waypoint s wps end_wp' i.
Proof.
  intros Hb. unfold final_waypoint, Py.mod_. rewrite Hb.
  destruct (Z.of_nat (length wps) =? 0)%Z; [reflexivity |].
  replace ((i + Z.of_nat (length wps)) mod Z.of_nat (length wps))%Z
    with (i mod Z.of_nat (length wps))%Z; [reflexivity |].
  replace (i + Z.of_nat (length wps))%Z
    with (i + 1 * Z.of_nat (length wps))%Z by ring.
  now rewrite Z_mod_plus_full.
Qed.

Lemma final_waypoint_cruise_end (s : Node) (wps : list Waypoint)
      (end_wp end_wp' i : Z) :
  braking s = false ->
  final_waypoint s wps end_wp i = final_waypoint s wps end_wp' i.
Proof.
  intros Hb. unfold final_waypoint. rewrite Hb. reflexivity.
Qed.

(** X14. While the node is not braking, a window depends on its start only
    modulo the length [L] of the path: the request [[a + L, b + L)] gives
    what [[a, b)] gives. In particular a window that starts at [L], the
    index the locator returns past the last waypoint, is the window that
    starts at 0. *)
Theorem cruise_window_wraps (s : Node) (wps : list Waypoint) (a b : Z) :
  braking s = false ->
  get_final_waypoints s wps (a + Z.of_nat (length wps))
                      (b + Z.of_nat (length wps))
  = get_final_waypoints s wps a b.
Proof.
  intros Hb. unfold get_final_waypoints.
  rewrite range_shift, for_each_map. apply for_each_ext.
  intros i. now apply final_waypoint_cruise_mod.
Qed.

Lemma cruise_window_wraps_witness :
  get_final_waypoints scenario_A (straight_path 300)
                      (0 + Z.of_nat (length (straight_path 300)))
                      (200 + Z.of_nat (length (straight_path 300)))
  = get_final_waypoints scenario_A (straight_path 300) 0 200.
Proof.
  apply (cruise_window_wraps scenario_A (straight_path 300) 0 200).
  reflexivity.
Defined.

(** X15. While the node is not braking, windows concatenate: for
    [a <= b <= c] the window [[a, c)] is the window [[a, b)] followed by the
    window [[b, c)], and it raises when one of the two does. *)
Theorem cruise_windows_concatenate
        (s : Node) (wps : list Waypoint) (a b c : Z) :
  braking s = false ->
  (a <= b <= c)%Z ->
  get_final_waypoints s wps a c
  = (l1 <- get_final_waypoints s wps a b ;;
     l2 <- get_final_waypoints s wps b c ;;
     Py.Ok (l1 ++ l2)).
Proof.
  intros Hb Habc. unfold get_final_waypoints.
  rewrite (range_split a b c Habc), for_each_app.
  rewrite (for_each_ext (final_waypoint s wps b) (final_waypoint s wps c))
    by (intros i; now apply final_waypoint_cruise_end).
  reflexivity.
Qed.

Lemma cruise_windows_concatenate_witness :
  get_final_waypoints scenario_A (straight_path 300) 0 200
  = (l1 <- get_final_waypoints scenario_A (straight_path 300) 0 50 ;;
     l2 <- get_final_waypoints scenario_A (straight_path 300) 50 200 ;;
     Py.Ok (l1 ++ l2)).
Proof.
  apply (cruise_windows_concatenate scenario_A (straight_path 300) 0 50 200).
  - reflexivity.
  - lia.
Defined.

(** ** What the published window does not depend on *)

(** [get_final_waypoints] reads two attributes of the node. *)
Lemma get_final_waypoints_state (s1 s2 : Node) (wps : list Waypoint)
      (a b : Z) :
  braking s1 = braking s2 ->
  current_velocity s1 = current_velocity s2 ->
  get_final_waypoints s1 wps a b = get_final_waypoints s2 wps a b.
Proof.
  intros Hb Hv. unfold get_final_waypoints. apply for_each_ext.
  intros i. unfold final_waypoint. now rewrite Hb, Hv.
Qed.

Lemma same_poses_scan (p : Pose) (wps wps' : list Waypoint) :
  same_poses wps wps' ->
  forall i cd cw, closest_scan p wps i cd cw = closest_scan p wps' i cd cw.
Proof.
  induction 1 as [| w w' l l' Hw HF IH]; intros i cd cw; simpl.
  - reflexivity.
  - rewrite Hw. destruct (Py.flt_inf _ cd); apply IH.
Qed.

Lemma same_poses_getitem (wps wps' : list Waypoint) (i : Z) :
  same_poses wps wps' ->
  match Py.getitem wps i, Py.getitem wps' i with
  | Py.Ok w, Py.Ok w' => pose w = pose w'
  | Py.Raise e, Py.Raise e' => e = e'
  | _, _ => False
  end.
Proof.
  intros Hsame. pose proof (Forall2_length Hsame) as Hlen.
  unfold Py.getitem. rewrite Hlen.
  set (j := if (i <? 0)%Z then (Z.of_nat (length wps') + i)%Z else i).
  destruct ((0 <=? j) && (j <? Z.of_nat (length wps')))%Z; [| reflexivity].
  destruct (nth_error wps (Z.to_nat j)) as [w |] eqn:E.
  - destruct (Forall2_nth_error_l _ _ _ Hsame _ _ E) as (w' & -> & Hw).
    exact Hw.
  - apply nth_error_None in E. rewrite Hlen in E.
    apply nth_error_None in E. rewrite E. reflexivity.
Qed.

Lemma same_poses_next (p : Pose) (wps wps' : list Waypoint) :
  same_poses wps wps' ->
  get_next_waypoint p wps = get_next_waypoint p wps'.
Proof.
  intros Hsame. unfold get_next_waypoint, get_closest_waypoint.
  rewrite (same_poses_scan p wps wps' Hsame).
  pose proof (same_poses_getitem wps wps'
                (closest_scan p wps' 0 Py.PosInf 0) Hsame) as H.
  destruct (Py.getitem wps _) as [w | e], (Py.getitem wps' _) as [w' | e'];
    simpl; try contradiction; [now rewrite H | now rewrite H].
Qed.

Lemma same_poses_final (s : Node) (wps wps' : list Waypoint) (a b : Z) :
  same_poses wps wps' ->
  get_final_waypoints s wps a b = get_final_waypoints s wps' a b.
Proof.
  intros Hsame. unfold get_final_waypoints. apply for_each_ext. intros i.
  unfold final_waypoint. rewrite (Forall2_length Hsame).
  destruct (Py.mod_ i (Z.of_nat (length wps'))) as [index | e]; simpl;
    [| reflexivity].
  pose proof (same_poses_getitem wps wps' index Hsame) as Hsrc.
  destruct (Py.getitem wps index) as [src | e],
           (Py.getitem wps' index) as [src' | e'];
    simpl; try contradiction; [| now rewrite Hsrc].
  rewrite Hsrc. destruct (braking s); simpl; [| reflexivity].
  pose proof (same_poses_getitem wps wps' b Hsame) as Hstop.
  destruct (Py.getitem wps b) as [stop | e],
           (Py.getitem wps' b) as [stop' | e'];
    simpl; try contradiction; [now rewrite Hstop | now rewrite Hstop].
Qed.

Lemma same_poses_window (s1 s2 : Node) (wps wps' : list Waypoint) (a b : Z) :
  same_poses wps wps' ->
  braking s1 = braking s2 ->
  current_velocity s1 = current_velocity s2 ->
  get_final_waypoints s1 wps a b = get_final_waypoints s2 wps' a b.
Proof.
  intros Hsame Hb Hv.
  rewrite (same_poses_final s1 wps wps' a b Hsame).
  now apply get_final_waypoints_state.
Qed.

Lemma snd_publish (s : Node) (r : Py.Result (list Waypoint)) :
  snd (publish s r)
  = match r with
    | Py.Ok lane => Published lane
    | Py.Raise e => Raised e
    end.
Proof. destruct r; reflexivity. Qed.

(** X16. The target speeds the path carries are never read: two paths with
    the same poses, waypoint by waypoint, give the same outcome of the tick
    (the same window or the same exception) and the same braking flag after
    it. *)
Theorem base_speeds_ignored (s : Node) (wps wps' : list Waypoint) :
  Forall2 (fun w w' => pose w = pose w') wps wps' ->
  snd (loop (base_waypoints_cb s wps)) = snd (loop (base_waypoints_cb s wps'))
  /\
  braking (fst (loop (base_waypoints_cb s wps)))
  = braking (fst (loop (base_waypoints_cb s wps'))).
Proof.
  intros Hsame. unfold loop. simpl base_waypoints. simpl current_pose.
  simpl traffic_waypoint. simpl current_velocity. simpl braking.
  destruct (current_pose s) as [p |]; [| split; reflexivity].
  rewrite (same_poses_next p wps wps' Hsame).
  destruct (get_next_waypoint p wps') as [next_wp | e]; [| split; reflexivity].
  pose proof (same_poses_getitem wps wps' (traffic_waypoint s) Hsame) as Hstop.
  destruct (Py.getitem wps (traffic_waypoint s)) as [stop | e],
           (Py.getitem wps' (traffic_waypoint s)) as [stop' | e'];
    try contradiction; [| subst e'; split; reflexivity].
  rewrite Hstop.
  repeat match goal with
         | |- context [if ?c then _ else _] => destruct c
         end;
    rewrite !fst_publish, !snd_publish;
    match goal with
    | |- context [get_final_waypoints ?s1 wps ?a ?b] =>
        match goal with
        | |- context [get_final_waypoints ?s2 wps' a b] =>
            rewrite (same_poses_window s1 s2 wps wps' a b Hsame
                       eq_refl eq_refl)
        end
    end; split; reflexivity.
Qed.

Lemma base_speeds_ignored_witness :
  snd (loop (base_waypoints_cb scenario_A (straight_path 300)))
  = snd (loop (base_waypoints_cb scenario_A
                 (map (fun w => mkWaypoint (pose w) 11) (straight_path 300))))
  /\
  braking (fst (loop (base_waypoints_cb scenario_A (straight_path 300))))
  = braking (fst (loop (base_waypoints_cb scenario_A
                          (map (fun w => mkWaypoint (pose w) 11)
                               (straight_path 300))))).
Proof.
  apply (base_speeds_ignored scenario_A).
  generalize (straight_path 300). intros l.
  induction l as [| w rest IH]; simpl; constructor; [reflexivity | exact IH].
Defined.

(** X17. The obstacle index is stored and never read: an obstacle message
    before a tick changes neither what the tick publishes or raises nor the
    braking decision; it only sets [obstacle_waypoint]. *)
Theorem obstacle_messages_ignored (s : Node) (data : Z) :
  loop (obstacle_waypoint_cb s data)
  = (obstacle_waypoint_cb (fst (loop s)) data, snd (loop s)).
Proof.
  unfold loop. simpl base_waypoints. simpl current_pose.
  simpl traffic_waypoint. simpl current_velocity. simpl braking.
  destruct (base_waypoints s) as [wps |]; [| reflexivity].
  destruct (current_pose s) as [p |]; [| reflexivity].
  destruct (get_next_waypoint p wps) as [next_wp | e]; [| reflexivity].
  destruct (Py.getitem wps (traffic_waypoint s)) as [stop | e];
    [| reflexivity].
  repeat match goal with
         | |- context [if ?c then _ else _] => destruct c
         end;
    match goal with
    | |- publish ?s1 (get_final_waypoints ?s1 wps ?a ?b)
         = (_ (fst (publish ?s2 _)) _, _) =>
        rewrite (get_final_waypoints_state s1 s2 wps a b eq_refl eq_refl);
        destruct (get_final_waypoints s2 wps a b)
    end; reflexivity.
Qed.

(** ** Invariants of a run *)

Lemma step_decel (s : Node) (e : Event) : decel (fst (step s e)) = decel s.
Proof.
  destruct e; simpl; try reflexivity.
  destruct (loop_state s) as [-> | [[_ ->] | [_ ->]]]; reflexivity.
Qed.

Lemma run_decel (es : list Event) : forall s, decel (run s es) = decel s.
Proof.
  induction es as [| e rest IH]; intros s; simpl; [reflexivity |].
  pose proof (step_decel s e) as H.
  destruct (step s e) as [s1 o]; simpl in H.
  destruct o; rewrite ?IH; exact H.
Qed.

(** X18. In every state a run of messages and ticks reaches from the initial
    state, [decel] still has its initial value 1 (nothing writes it), and the
    braking flag is only set when both the path and a pose have been
    received. *)
Theorem reachable_invariants (es : list Event) :
  decel (run init es) = 1 /\
  (braking (run init es) = true -> ready (run init es)).
Proof.
  split.
  - now rewrite run_decel.
  - apply reachable_braking_ready.
Qed.

Lemma reachable_invariants_witness :
  decel (run init run_to_braking) = 1 /\
  ready (run init run_to_braking).
Proof.
  destruct (reachable_invariants run_to_braking) as [Hd Hr].
  split; [exact Hd |]. apply Hr.
  rewrite run_to_braking_state. reflexivity.
Defined.

Lemma step_no_request (s : Node) (e : Event) :
  traffic_waypoint s = (-1)%Z ->
  braking s = false ->
  (forall d, e = TrafficMsg d -> d = (-1)%Z) ->
  traffic_waypoint (fst (step s e)) = (-1)%Z /\
  braking (fst (step s e)) = false.
Proof.
  intros Ht Hb He. destruct e; simpl; try (now split).
  - destruct (loop_state s) as [-> | [[_ ->] | [Hne _]]];
      [now split | now split | contradiction].
  - split; [now apply He | exact Hb].
Qed.

(** X19. Without a stop request the node never brakes: after any run from
    the initial state in which every stop-index message carries [-1], the
    stop index is [-1] and the braking flag is clear. *)
Theorem no_request_no_braking (es : list Event) :
  (forall d, In (TrafficMsg d) es -> d = (-1)%Z) ->
  traffic_waypoint (run init es) = (-1)%Z /\
  braking (run init es) = false.
Proof.
  assert (Hgen : forall s,
             traffic_waypoint s = (-1)%Z -> braking s = false ->
             (forall d, In (TrafficMsg d) es -> d = (-1)%Z) ->
             traffic_waypoint (run s es) = (-1)%Z /\
             braking (run s es) = false).
  { induction es as [| e rest IH]; intros s Ht Hb Hes; simpl.
    - now split.
    - destruct (step_no_request s e Ht Hb) as [Ht' Hb'].
      { intros d ->. apply Hes. now left. }
      destruct (step s e) as [s1 o]; simpl in Ht', Hb'.
      destruct o; try (now split);
        (apply IH; [exact Ht' | exact Hb' |
                    intros d Hd; apply Hes; now right]). }
  apply Hgen; reflexivity.
Qed.

Lemma no_request_no_braking_witness :
  traffic_waypoint
    (run init [PathMsg (straight_path 11); PoseMsg (on_axis 0);
               VelocityMsg 20; Tick; TrafficMsg (-1); Tick])
  = (-1)%Z /\
  braking
    (run init [PathMsg (straight_path 11); PoseMsg (on_axis 0);
               VelocityMsg 20; Tick; TrafficMsg (-1); Tick])
  = false.
Proof.
  apply (no_request_no_braking
           [PathMsg (straight_path 11); PoseMsg (on_axis 0);
            VelocityMsg 20; Tick; TrafficMsg (-1); Tick]).
  intros d [H | [H | [H | [H | [H | [H | []]]]]]]; try discriminate.
  now injection H as <-.
Defined.

(** X20. A braking window never wraps around the end of the path: it is the
    stretch of the path from [next_wp] up to the stop index, so its entry at
    offset [k] has the pose of [waypoints[next_wp + k]] itself. *)
Theorem braking_window_is_path_slice
        (s : Node) (wps : list Waypoint) (p : Pose) (next_wp : Z)
        (stop : Waypoint) :
  base_waypoints s = Some wps ->
  current_pose s = Some p ->
  get_next_waypoint p wps = Py.Ok next_wp ->
  Py.getitem wps (traffic_waypoint s) = Py.Ok stop ->
  traffic_waypoint s <> (-1)%Z ->
  braking s = true \/
  min_stopping_dist (current_velocity s)
  <= distance (position p) (position (pose stop)) ->
  exists lane,
    loop s = (set_braking s true, Published lane) /\
    forall (k : nat) (w : Waypoint),
      nth_error lane k = Some w ->
      exists src,
        nth_error wps (Z.to_nat next_wp + k) = Some src /\
        pose w = pose src.
Proof.
  intros Hw Hp Hn Hs Ht Hc.
  destruct (loop_stop s wps p next_wp stop Hw Hp Hn Hs Ht Hc)
    as (lane & Hl & HF).
  exists lane. split; [exact Hl |]. intros k w Hk.
  destruct (window_nth_error _ _ _ k w HF Hk) as [(src & Hsrc & ->) Hlt].
  assert (Hpos : (0 <= next_wp)%Z).
  { destruct (get_next_waypoint_Ok p wps (getitem_nonempty _ _ _ Hs))
      as (n' & Hn' & Hr). rewrite Hn in Hn'. injection Hn' as <-. lia. }
  apply getitem_Ok_inv in Hs. destruct Hs as [Hr _].
  rewrite Z.mod_small in Hsrc by lia.
  exists src. split.
  - rewrite <- Hsrc. f_equal. lia.
  - unfold annotate. destruct src as [[[? ? ?] ?] ?]. reflexivity.
Qed.

Lemma braking_window_is_path_slice_witness :
  exists lane,
    loop scenario_A = (set_braking scenario_A true, Published lane) /\
    forall (k : nat) (w : Waypoint),
      nth_error lane k = Some w ->
      exists src,
        nth_error (straight_path 300) (Z.to_nat 0 + k) = Some src /\
        pose w = pose src.
Proof.
  apply (braking_window_is_path_slice scenario_A (straight_path 300)
           (on_axis 0) 0 (mkWaypoint (on_axis 200) 0)).
  - reflexivity.
  - reflexivity.
  - apply (scenario_located 300 0). simpl; lia.
  - apply (scenario_stop_indexed 300 200). simpl; lia.
  - discriminate.
  - right. simpl. rewrite distance_on_axis, min_stopping_dist_5.
    rewrite Rabs_left by lra. lra.
Defined.
